(** * common/xutil.c: X-related utility functions

    A shallow embedding of the functions of [common/xutil.c] and the
    properties of its property decoder, lock-mask resolver and error
    classifier.

    Conventions of the embedding:
    - C integers are [Z]; the data model is LP64 ([ssize_t] and [size_t]
      are 64 bits wide, [uint32_t] is 32 bits wide, the host is
      little-endian).
    - Memory the caller hands in is a [list byte] addressed by an offset;
      a pointer is [option Z], with [None] for [NULL].
    - The X server is a record of the replies it would give.  Every
      request sent, reply collected, reply released and byte range stored
      is appended to a trace.
    - An access outside an object, a [NULL] dereference and a signed
      overflow are undefined behaviour in C; the embedding stops with a
      [Fault] there.
    - Where allocations matter, the live blocks are a finite map from
      addresses to what the blocks hold. *)

From Stdlib Require Import ZArith String Strings.Byte DecimalString Lia.
From stdpp Require Import base option list gmap.

Local Open Scope Z_scope.

(** ** Outcomes, traces and the monad of the embedding *)

Inductive fault : Type :=
| NullDeref
| OutOfBounds
| SignedOverflow.

(** The requests [xutil.c] sends. *)
Inductive request : Type :=
| GetProperty (checked delete : bool) (w property type : Z)
              (long_offset long_length : Z)
| InternAtom (only_if_exists : bool) (name : string)
| GetModifierMapping.

Inductive lock : Type := NumLock | ShiftLock | CapsLock.

#[global] Instance lock_eq_dec : EqDecision lock.
Proof. solve_decision. Defined.

Inductive xevent : Type :=
| Send (r : request)            (* a request goes out on the connection *)
| Reply (present : bool)        (* a reply was waited for; [false]: NULL *)
| Release                       (* p_delete() of a reply *)
| Store (addr n : Z)            (* [n] bytes stored at [addr .. addr+n-1] *)
| StoreMask (l : lock).         (* store through one of the mask pointers *)

Record world (H : Type) : Type := World { heap : H; trace : list xevent }.
Arguments World {H} _ _.
Arguments heap {H} _.
Arguments trace {H} _.

Inductive outcome (H A : Type) : Type :=
| Ret (a : A) (w : world H)
| Fault (f : fault).
Arguments Ret {H A} _ _.
Arguments Fault {H A} _.

Definition xm (H A : Type) : Type := world H -> outcome H A.

#[global] Instance xm_ret {H} : MRet (xm H) := fun A a w => Ret a w.
#[global] Instance xm_bind {H} : MBind (xm H) := fun A B f m w =>
  match m w with
  | Ret a w' => f a w'
  | Fault e => Fault e
  end.

Definition crash {H A} (e : fault) : xm H A := fun _ => Fault e.
Definition emit {H} (e : xevent) : xm H unit := fun w =>
  Ret tt (World (heap w) (trace w ++ [e])).
Definition put_heap {H} (h : H) : xm H unit := fun w => Ret tt (World h (trace w)).

(** [for (i = start; i < start + n; i++) body(i)] *)
Fixpoint for_loop {H} (n : nat) (i : Z) (body : Z -> xm H unit) : xm H unit :=
  match n with
  | O => mret tt
  | S n' => body i ;; for_loop n' (i + 1) body
  end.

(** ** Integer types *)

Definition SSIZE_MIN : Z := - 2 ^ 63.
Definition SSIZE_MAX : Z := 2 ^ 63 - 1.

(** Subtraction on [ssize_t]; leaving the range is undefined. *)
Definition ssize_sub {H} (a b : Z) : xm H Z :=
  if (SSIZE_MIN <=? a - b) && (a - b <=? SSIZE_MAX) then mret (a - b)
  else crash SignedOverflow.

(** Conversion of a signed value to [size_t]. *)
Definition to_size_t (z : Z) : Z := z mod 2 ^ 64.

(** [1 << i] on [int], stored into an [unsigned int]. *)
Definition shl1 (i : Z) : Z := Z.shiftl 1 i.

(** ** X protocol constants (xcb/xcb_atom.h, xcb/xcb.h, X11/keysymdef.h) *)

Definition XCB_NONE : Z := 0.
Definition XCB_GET_PROPERTY_TYPE_ANY : Z := 0.
Definition STRING : Z := 31.
Definition WINDOW : Z := 33.
Definition WM_CLASS : Z := 67.
Definition WM_TRANSIENT_FOR : Z := 68.
Definition XK_Num_Lock : Z := 0xff7f.
Definition XK_Shift_Lock : Z := 0xffe6.
Definition XK_Caps_Lock : Z := 0xffe5.

(** ** Replies and the server *)

(** [xcb_get_property_reply_t], with the bytes that follow the fixed
    header ([xcb_get_property_value]). *)
Module prop.
Record reply : Type := Reply {
  format : Z;          (* uint8_t *)
  length : Z;          (* uint32_t: size of the value in 4-byte units *)
  type : Z;            (* xcb_atom_t *)
  value_len : Z;       (* uint32_t: size of the value in format units *)
  value : list byte
}.
End prop.

(** [xcb_get_modifier_mapping_reply_t] with its keycode table
    ([xcb_get_modifier_mapping_keycodes]). *)
Module modmap.
Record reply : Type := Reply {
  keycodes_per_modifier : Z;   (* uint8_t *)
  keycodes : list Z            (* xcb_keycode_t, row-major, 8 rows *)
}.
End modmap.

Record xserver : Type := XServer {
  property_reply : Z -> Z -> option prop.reply;   (* window, property *)
  intern_reply : string -> option Z;
  modmap_reply : option modmap.reply
}.

(** [xcb_key_symbols_t]: the keycode a keysym is bound to. *)
Definition xcb_key_symbols_t : Type := Z -> Z.
Definition xcb_key_symbols_get_keycode (syms : xcb_key_symbols_t) (sym : Z) : Z :=
  syms sym.

Definition wait_reply {H A} (r : option A) : xm H (option A) :=
  emit (Reply (bool_decide (is_Some r))) ;; mret r.

(** Modelled from the spec: [p_delete] of common/util.h, which releases
    the buffer its argument points to; here [p_delete(&r)] on a reply. *)
Definition p_delete {H} : xm H unit := emit Release.

(** ** Byte memory *)

Definition NUL : byte := x00.

Definition is_nul (b : byte) : bool := Byte.eqb b NUL.

(** The value of a byte as [uint8_t]. *)
Definition byte_val (b : byte) : Z := Z.of_N (Byte.to_N b).

(** Four bytes in memory order as a [uint32_t], on a little-endian host. *)
Definition le32 (b0 b1 b2 b3 : byte) : Z :=
  byte_val b0 + 2 ^ 8 * byte_val b1 + 2 ^ 16 * byte_val b2 + 2 ^ 24 * byte_val b3.

(** [memcpy(dst, src, n)] into the caller's memory; [src] is the object
    read from, [n] a [size_t]. *)
Definition memcpy (dst : Z) (src : list byte) (n : Z) : xm (list byte) unit :=
  fun w =>
    if (0 <=? n) && (n <=? Z.of_nat (length src)) && (0 <=? dst)
       && (dst + n <=? Z.of_nat (length (heap w)))
    then Ret tt (World (list_inserts (Z.to_nat dst) (take (Z.to_nat n) src) (heap w))
                       (trace w ++ [Store dst n]))
    else Fault OutOfBounds.

(** [p[0] = b] for a [char *p] at address [addr]. *)
Definition store (addr : Z) (b : byte) : xm (list byte) unit :=
  fun w =>
    if (0 <=? addr) && (addr <? Z.of_nat (length (heap w)))
    then Ret tt (World (<[Z.to_nat addr := b]> (heap w)) (trace w ++ [Store addr 1]))
    else Fault OutOfBounds.

(** ** xutil_intern_atom *)

Definition xutil_intern_atom {H} (X : xserver) (property : string) : xm H Z :=
  emit (Send (InternAtom false property)) ;;
  r_atom ← wait_reply (intern_reply X property) ;
  match r_atom with
  | Some atom => p_delete ;; mret atom
  | None => mret 0
  end.

(** ** xutil_gettextprop *)

Definition xutil_gettextprop (X : xserver) (w atom : Z)
    (text : option Z) (textlen : Z) : xm (list byte) bool :=
  emit (Send (GetProperty false false w atom XCB_GET_PROPERTY_TYPE_ANY 0 1000000)) ;;
  match text with
  | None => mret false
  | Some text =>
    if textlen =? 0 then mret false else
    prop_r ← wait_reply (property_reply X w atom) ;
    match prop_r with
    | None => mret false
    | Some r =>
      if (prop.value_len r =? 0) || negb (prop.format r =? 8)
      then p_delete ;; mret false
      else
        is_text ← (if prop.type r =? STRING then mret true
                   else utf8 ← xutil_intern_atom X "UTF8_STRING" ;
                        mret (prop.type r =? utf8)) ;
        (if is_text : bool then
           lim ← ssize_sub textlen 1 ;
           if prop.value_len r <? lim then
             memcpy text (prop.value r) (prop.value_len r) ;;
             store (text + prop.value_len r) NUL
           else
             n ← ssize_sub textlen 2 ;
             memcpy text (prop.value r) (to_size_t n) ;;
             store (text + lim) NUL
         else mret tt) ;;
        p_delete ;;
        mret true
    end
  end.

(** ** xutil_get_transient_for_hint *)

(** A 32-bit load from the start of [p]. *)
Definition load32 {H} (p : list byte) : xm H Z :=
  match p with
  | b0 :: b1 :: b2 :: b3 :: _ => mret (le32 b0 b1 b2 b3)
  | _ => crash OutOfBounds
  end.

(** The heap is the [xcb_window_t] that [prop_win] points to. *)
Definition xutil_get_transient_for_hint (X : xserver) (win : Z) : xm Z bool :=
  emit (Send (GetProperty true false win WM_TRANSIENT_FOR WINDOW 0 1)) ;;
  t_hint_r ← wait_reply (property_reply X win WM_TRANSIENT_FOR) ;
  match t_hint_r with
  | None => put_heap XCB_NONE ;; mret false
  | Some r =>
    if negb (prop.type r =? WINDOW) || negb (prop.format r =? 32)
       || (prop.length r =? 0)
    then put_heap XCB_NONE ;; p_delete ;; mret false
    else
      v ← load32 (prop.value r) ;
      put_heap v ;;
      p_delete ;;
      mret true
  end.

(** ** xutil_get_class_hint *)

(** Modelled from the spec: [class_hint_t] of common/xutil.h, a pair of
    owned strings, instance name and class name. *)
Record class_hint_t : Type := ClassHint {
  res_name : list byte;
  res_class : list byte
}.

(** [strlen(p)] where [p] points at the bytes [s] of an object: the scan
    leaves the object when [s] holds no null byte. *)
Fixpoint strlen (s : list byte) : option Z :=
  match s with
  | [] => None
  | b :: s' => if is_nul b then Some 0 else Z.succ <$> strlen s'
  end.

(** Modelled from the spec: [a_strlen] of common/util.h, the C-string
    length of its argument ([data + off] here, a non-null pointer). *)
Definition a_strlen {H} (data : list byte) (off : Z) : xm H Z :=
  if off <? 0 then crash OutOfBounds else
  match strlen (drop (Z.to_nat off) data) with
  | Some n => mret n
  | None => crash OutOfBounds
  end.

(** [strndup(p, n)]: the bytes before the first null byte, at most [n]. *)
Fixpoint strndup_bytes (s : list byte) (n : nat) {struct n}
    : option (list byte) :=
  match n with
  | O => Some []
  | S n' =>
    match s with
    | [] => None
    | b :: s' => if is_nul b then Some [] else (b ::.) <$> strndup_bytes s' n'
    end
  end.

Definition strndup {H} (data : list byte) (off n : Z) : xm H (list byte) :=
  if (off <? 0) || (n <? 0) then crash OutOfBounds else
  match strndup_bytes (drop (Z.to_nat off) data) (Z.to_nat n) with
  | Some s => mret s
  | None => crash OutOfBounds
  end.

(** The structure [ch], allocated before the reply is waited for, is
    the value returned; allocations are not part of the trace. *)
Definition xutil_get_class_hint (X : xserver) (win : Z)
    : xm unit (option class_hint_t) :=
  emit (Send (GetProperty false false win WM_CLASS STRING 0 2048)) ;;
  class_hint_r ← wait_reply (property_reply X win WM_CLASS) ;
  match class_hint_r with
  | None => mret None
  | Some r =>
    if negb (prop.type r =? STRING) || negb (prop.format r =? 8)
    then p_delete ;; mret None
    else
      let data := prop.value r in
      len_name ← a_strlen data 0 ;
      len_class ← a_strlen data (len_name + 1) ;
      name ← strndup data 0 len_name ;
      class ← strndup data (len_name + 1) len_class ;
      p_delete ;;
      mret (Some (ClassHint name class))
  end.

(** ** xutil_getlockmask *)

(** The three [unsigned int *] arguments: [None] is a [NULL] pointer,
    [Some v] a pointer to a cell that holds [v]. *)
Record lockmasks : Type := LockMasks {
  numlockmask : option Z;
  shiftlockmask : option Z;
  capslockmask : option Z
}.

Definition mask_of (l : lock) (m : lockmasks) : option Z :=
  match l with
  | NumLock => numlockmask m
  | ShiftLock => shiftlockmask m
  | CapsLock => capslockmask m
  end.

Definition set_mask (l : lock) (v : Z) (m : lockmasks) : lockmasks :=
  match l with
  | NumLock => LockMasks (Some v) (shiftlockmask m) (capslockmask m)
  | ShiftLock => LockMasks (numlockmask m) (Some v) (capslockmask m)
  | CapsLock => LockMasks (numlockmask m) (shiftlockmask m) (Some v)
  end.

(** [*p = v] through one of the mask pointers. *)
Definition store_mask (l : lock) (v : Z) : xm lockmasks unit := fun w =>
  match mask_of l (heap w) with
  | None => Fault NullDeref
  | Some _ => Ret tt (World (set_mask l v (heap w)) (trace w ++ [StoreMask l]))
  end.

(** [p != NULL] for one of the mask pointers. *)
Definition mask_nonnull (l : lock) : xm lockmasks bool := fun w =>
  Ret (bool_decide (is_Some (mask_of l (heap w)))) w.

(** [modmap_r->keycodes_per_modifier] *)
Definition keycodes_per_modifier {H} (modmap_r : option modmap.reply) : xm H Z :=
  match modmap_r with
  | None => crash NullDeref
  | Some r => mret (modmap.keycodes_per_modifier r)
  end.

(** [modmap[k]], the table following the reply header. *)
Definition modmap_at {H} (modmap_r : option modmap.reply) (k : Z) : xm H Z :=
  match modmap_r with
  | None => crash NullDeref
  | Some r =>
    if k <? 0 then crash OutOfBounds else
    match modmap.keycodes r !! Z.to_nat k with
    | Some kc => mret kc
    | None => crash OutOfBounds
    end
  end.

Definition lockmask_cell (keysyms : xcb_key_symbols_t) (kc mask : Z)
    : xm lockmasks unit :=
  num ← mask_nonnull NumLock ;
  if num && (kc =? xcb_key_symbols_get_keycode keysyms XK_Num_Lock)
  then store_mask NumLock mask
  else
    shift ← mask_nonnull ShiftLock ;
    if shift && (kc =? xcb_key_symbols_get_keycode keysyms XK_Shift_Lock)
    then store_mask ShiftLock mask
    else
      caps ← mask_nonnull CapsLock ;
      if caps && (kc =? xcb_key_symbols_get_keycode keysyms XK_Caps_Lock)
      then store_mask CapsLock mask
      else mret tt.

Definition xutil_getlockmask (X : xserver) (keysyms : xcb_key_symbols_t)
    : xm lockmasks unit :=
  emit (Send GetModifierMapping) ;;
  modmap_r ← wait_reply (modmap_reply X) ;
  for_loop 8 0 (fun i =>
    per_mod ← keycodes_per_modifier modmap_r ;
    for_loop (Z.to_nat per_mod) 0 (fun j =>
      per_mod ← keycodes_per_modifier modmap_r ;
      kc ← modmap_at modmap_r (i * per_mod + j) ;
      lockmask_cell keysyms kc (shl1 i))) ;;
  p_delete.

(** ** The label tables and xutil_get_error *)

Definition xutil_error_label : list string :=
  [ "Success"; "BadRequest"; "BadValue"; "BadWindow"; "BadPixmap";
    "BadAtom"; "BadCursor"; "BadFont"; "BadMatch"; "BadDrawable";
    "BadAccess"; "BadAlloc"; "BadColor"; "BadGC"; "BadIDChoice";
    "BadName"; "BadLength"; "BadImplementation" ]%string.

Definition xutil_request_label : list string :=
  [ "None"; "CreateWindow"; "ChangeWindowAttributes";
    "GetWindowAttributes"; "DestroyWindow"; "DestroySubwindows";
    "ChangeSaveSet"; "ReparentWindow"; "MapWindow"; "MapSubwindows";
    "UnmapWindow"; "UnmapSubwindows"; "ConfigureWindow";
    "CirculateWindow"; "GetGeometry"; "QueryTree"; "InternAtom";
    "GetAtomName"; "ChangeProperty"; "DeleteProperty"; "GetProperty";
    "ListProperties"; "SetSelectionOwner"; "GetSelectionOwner";
    "ConvertSelection"; "SendEvent"; "GrabPointer"; "UngrabPointer";
    "GrabButton"; "UngrabButton"; "ChangeActivePointerGrab";
    "GrabKeyboard"; "UngrabKeyboard"; "GrabKey"; "UngrabKey";
    "AllowEvents"; "GrabServer"; "UngrabServer"; "QueryPointer";
    "GetMotionEvents"; "TranslateCoords"; "WarpPointer";
    "SetInputFocus"; "GetInputFocus"; "QueryKeymap"; "OpenFont";
    "CloseFont"; "QueryFont"; "QueryTextExtents"; "ListFonts";
    "ListFontsWithInfo"; "SetFontPath"; "GetFontPath"; "CreatePixmap";
    "FreePixmap"; "CreateGC"; "ChangeGC"; "CopyGC"; "SetDashes";
    "SetClipRectangles"; "FreeGC"; "ClearArea"; "CopyArea";
    "CopyPlane"; "PolyPoint"; "PolyLine"; "PolySegment";
    "PolyRectangle"; "PolyArc"; "FillPoly"; "PolyFillRectangle";
    "PolyFillArc"; "PutImage"; "GetImage"; "PolyText"; "PolyText";
    "ImageText"; "ImageText"; "CreateColormap"; "FreeColormap";
    "CopyColormapAndFree"; "InstallColormap"; "UninstallColormap";
    "ListInstalledColormaps"; "AllocColor"; "AllocNamedColor";
    "AllocColorCells"; "AllocColorPlanes"; "FreeColors"; "StoreColors";
    "StoreNamedColor"; "QueryColors"; "LookupColor"; "CreateCursor";
    "CreateGlyphCursor"; "FreeCursor"; "RecolorCursor";
    "QueryBestSize"; "QueryExtension"; "ListExtensions";
    "ChangeKeyboardMapping"; "GetKeyboardMapping";
    "ChangeKeyboardControl"; "GetKeyboardControl"; "Bell";
    "ChangePointerControl"; "GetPointerControl"; "SetScreenSaver";
    "GetScreenSaver"; "ChangeHosts"; "ListHosts"; "SetAccessControl";
    "SetCloseDownMode"; "KillClient"; "RotateProperties";
    "ForceScreenSaver"; "SetPointerMapping"; "GetPointerMapping";
    "SetModifierMapping"; "GetModifierMapping"; "major 120";
    "major 121"; "major 122"; "major 123"; "major 124"; "major 125";
    "major 126"; "NoOperation" ]%string.

(** Modelled from the spec: [xutil_error_t] of common/xutil.h, with the
    fields [xutil_get_error] assigns: the request code and the two owned
    labels. *)
Record xutil_error_t : Type := XutilError {
  request_code : Z;           (* uint8_t *)
  request_label : string;
  error_label : string
}.

(** The byte at offset [off] of a raw error [e]. *)
Definition byte_at {H} (e : list byte) (off : nat) : xm H Z :=
  match e !! off with
  | Some b => mret (byte_val b)
  | None => crash OutOfBounds
  end.

(** [asprintf(&s, "%d", n)] *)
Definition asprintf_d (n : Z) : string := NilZero.string_of_int (Z.to_int n).

(** Modelled from the spec: [a_strdup] of common/util.h, an owned copy
    of a table entry; [table[i]] is read first. *)
Definition a_strdup_at {H} (table : list string) (i : Z) : xm H string :=
  match table !! Z.to_nat i with
  | Some s => mret s
  | None => crash OutOfBounds
  end.

(** A raw [xcb_generic_error_t] is its bytes: [response_type] at offset
    0 and [error_code] at offset 1. *)
Definition xutil_get_error (e : list byte) : xm unit (option xutil_error_t) :=
  response_type ← byte_at e 0 ;
  if negb (response_type =? 0) then mret None else
  request_code ← byte_at e 10 ;
  request_label ←
    (if Z.of_nat (length xutil_request_label) <=? request_code
     then mret (asprintf_d request_code)
     else a_strdup_at xutil_request_label request_code) ;
  error_code ← byte_at e 1 ;
  error_label ←
    (if Z.of_nat (length xutil_error_label) <=? error_code
     then mret (asprintf_d error_code)
     else a_strdup_at xutil_error_label error_code) ;
  mret (Some (XutilError request_code request_label error_label)).

(** ** Definitions used in the statements *)

(** The atom [xutil_intern_atom] yields: the server's, or the zero
    sentinel without a reply. *)
Definition atom_of (X : xserver) (name : string) : Z :=
  default 0 (intern_reply X name).

Definition intern_trace (X : xserver) (name : string) : list xevent :=
  match intern_reply X name with
  | Some _ => [Send (InternAtom false name); Reply true; Release]
  | None => [Send (InternAtom false name); Reply false]
  end.

Definition text_request (w atom : Z) : xevent :=
  Send (GetProperty false false w atom XCB_GET_PROPERTY_TYPE_ANY 0 1000000).

(** The test on the type of the value: [STRING], or the atom interned for
    [UTF8_STRING]. *)
Definition is_text_type (X : xserver) (r : prop.reply) : bool :=
  (prop.type r =? STRING) || (prop.type r =? atom_of X "UTF8_STRING").

(** What that test leaves in the trace: [||] interns the atom only when
    the type is not [STRING]. *)
Definition type_trace (X : xserver) (r : prop.reply) : list xevent :=
  if prop.type r =? STRING then [] else intern_trace X "UTF8_STRING".

(** The two copying branches, as they stand in [xutil_gettextprop]. *)
Definition text_copy (text textlen : Z) (r : prop.reply) : xm (list byte) unit :=
  lim ← ssize_sub textlen 1 ;
  if prop.value_len r <? lim then
    memcpy text (prop.value r) (prop.value_len r) ;;
    store (text + prop.value_len r) NUL
  else
    n ← ssize_sub textlen 2 ;
    memcpy text (prop.value r) (to_size_t n) ;;
    store (text + lim) NUL.

(** The reply passes the checks made before its type is looked at. *)
Definition usable (r : prop.reply) : Prop :=
  prop.value_len r <> 0 /\ prop.format r = 8.

(** The caller's memory after [bytes] went to address [a] and a null
    byte to address [t]. *)
Definition written_text (a : Z) (bytes : list byte) (t : Z) (h : list byte)
    : list byte :=
  <[Z.to_nat t := NUL]> (list_inserts (Z.to_nat a) bytes h).

(** The byte ranges stored, in order. *)
Definition stores_of (tr : list xevent) : list (Z * Z) :=
  omap (fun e => match e with Store p n => Some (p, n) | _ => None end) tr.

Definition class_request (win : Z) : xevent :=
  Send (GetProperty false false win WM_CLASS STRING 0 2048).

(** The decimal text of a byte. *)
Definition decimal (b : byte) : string :=
  NilZero.string_of_uint (N.to_uint (Byte.to_N b)).

(** The lock a keycode selects, given which mask pointers are non-null:
    the first of Num Lock, Shift Lock and Caps Lock whose pointer is
    non-null and whose keysym is bound to the keycode. *)
Definition selects (keysyms : xcb_key_symbols_t) (h : lockmasks) (kc : Z)
    : option lock :=
  if bool_decide (is_Some (numlockmask h)) && (kc =? keysyms XK_Num_Lock)
  then Some NumLock
  else if bool_decide (is_Some (shiftlockmask h)) && (kc =? keysyms XK_Shift_Lock)
  then Some ShiftLock
  else if bool_decide (is_Some (capslockmask h)) && (kc =? keysyms XK_Caps_Lock)
  then Some CapsLock
  else None.

(** The keycode at position [k] of the scan selects [l]. *)
Definition hit (keysyms : xcb_key_symbols_t) (h : lockmasks)
    (r : modmap.reply) (l : lock) (k : Z) : Prop :=
  exists kc, modmap.keycodes r !! Z.to_nat k = Some kc /\
             selects keysyms h kc = Some l.

(** Cell [(i, j)] of the table selects [l]; the row-major scan reaches
    it at position [i * keycodes_per_modifier + j]. *)
Definition cell_selects (keysyms : xcb_key_symbols_t) (h : lockmasks)
    (r : modmap.reply) (l : lock) (i j : Z) : Prop :=
  hit keysyms h r l (i * modmap.keycodes_per_modifier r + j).

(** The masks after the first [n] positions of the scan, from [h0]: a
    null pointer stays null; a cell behind a non-null pointer holds the
    row bit of the last position that selected its lock, or its first
    value when no position did. *)
Definition scanned (keysyms : xcb_key_symbols_t) (r : modmap.reply)
    (h0 : lockmasks) (n : Z) (h : lockmasks) : Prop :=
  forall l,
    match mask_of l h0 with
    | None => mask_of l h = None
    | Some v0 =>
      (exists k, 0 <= k < n /\ hit keysyms h0 r l k /\
         (forall k', k < k' < n -> ~ hit keysyms h0 r l k') /\
         mask_of l h = Some (shl1 (k / modmap.keycodes_per_modifier r))) \/
      ((forall k, 0 <= k < n -> ~ hit keysyms h0 r l k) /\
       mask_of l h = Some v0)
    end.

(** The events [evs] store through non-null mask pointers only. *)
Definition stores_nonnull (h0 : lockmasks) (evs : list xevent) : Prop :=
  forall l, StoreMask l ∈ evs -> is_Some (mask_of l h0).

(** The number of replies collected and not yet released along a trace. *)
Fixpoint held (tr : list xevent) : Z :=
  match tr with
  | [] => 0
  | Reply true :: tr' => held tr' + 1
  | Release :: tr' => held tr' - 1
  | _ :: tr' => held tr'
  end.

(** ** Example servers, replies and memories *)

(** A server that answers every property request with [r]
    and interns every name as atom 300. *)
Definition server_with (r : option prop.reply) : xserver :=
  XServer (fun _ _ => r) (fun _ => Some 300) None.

Definition server_modmap (r : modmap.reply) : xserver :=
  XServer (fun _ _ => None) (fun _ => None) (Some r).

Definition bytes_of (s : string) : list byte := list_byte_of_string s.

(** A caller's object of [n] bytes, all ['x'], and an empty trace. *)
Definition fresh (n : nat) : world (list byte) := World (replicate n "x"%byte) [].

Definition reply_hello : prop.reply :=
  prop.Reply 8 2 STRING 5 (bytes_of "hello").

Definition reply_20A : prop.reply :=
  prop.Reply 8 5 STRING 20 (bytes_of "AAAAAAAAAAAAAAAAAAAA").

Definition reply_utf8 : prop.reply :=
  prop.Reply 8 2 300 5 (bytes_of "hello").

Definition reply_compound : prop.reply :=
  prop.Reply 8 2 400 5 (bytes_of "hello").

Definition reply_window : prop.reply :=
  prop.Reply 32 1 WINDOW 1 [x01; x02; x03; x04].

Definition reply_abcd : prop.reply :=
  prop.Reply 8 1 STRING 4 (bytes_of "abcd").

Definition reply_abc0 : prop.reply :=
  prop.Reply 8 1 STRING 4 (bytes_of "abc" ++ [NUL]).

(** A raw error: [response_type], [error_code], then the byte at
    offset 10 among zeroes, 32 bytes in all. *)
Definition raw_error (response_type error_code opcode : byte) : list byte :=
  [response_type; error_code] ++ replicate 8 x00 ++ [opcode] ++ replicate 21 x00.

Definition keysyms_of (num shift caps : Z) : xcb_key_symbols_t := fun sym =>
  if sym =? XK_Num_Lock then num
  else if sym =? XK_Shift_Lock then shift
  else if sym =? XK_Caps_Lock then caps
  else 0.

(** One keycode per modifier; keycode 5 sits in row 0. *)
Definition modmap_one : modmap.reply := modmap.Reply 1 [5; 0; 0; 0; 0; 0; 0; 0].

(** Two keycodes per modifier; keycode 66 sits in rows 1 and 7, keycode
    77 in row 4. *)
Definition modmap_two : modmap.reply :=
  modmap.Reply 2 [50; 62; 66; 0; 37; 105; 64; 108; 77; 0; 0; 0; 133; 134; 92; 66].

(** ** xutil_set_error_handler_catch_all *)

(** Number of different errors *)
Definition ERRORS_NBR : Z := 256.

(** Number of different events *)
Definition EVENTS_NBR : Z := 126.

(** The error slots of an [xcb_event_handlers_t]: slot [n] holds the
    handler for error [n] and the data handed to it, both pointers. *)
Definition error_handlers : Type := list (Z * Z).

(** [xcb_set_error_handler(evenths, errornum, handler, data)] of xcb-util:
    the pair goes into slot [errornum] of the error array. *)
Definition xcb_set_error_handler (errornum handler data : Z)
    : xm error_handlers unit :=
  fun w =>
    if (0 <=? errornum) && (errornum <? Z.of_nat (length (heap w)))
    then Ret tt (World (<[Z.to_nat errornum := (handler, data)]> (heap w)) (trace w))
    else Fault OutOfBounds.

Definition xutil_set_error_handler_catch_all (handler data : Z)
    : xm error_handlers unit :=
  for_loop (Z.to_nat ERRORS_NBR) 0 (fun err_num =>
    xcb_set_error_handler err_num handler data).

(** ** Further definitions used in the statements *)

(** The requests sent, in order. *)
Definition requests_of (tr : list xevent) : list request :=
  omap (fun e => match e with Send rq => Some rq | _ => None end) tr.

(** The locks stored through, in order. *)
Definition mask_stores_of (tr : list xevent) : list lock :=
  omap (fun e => match e with StoreMask l => Some l | _ => None end) tr.

(** No byte of [s] is the null byte. *)
Definition nul_free (s : list byte) : Prop :=
  Forall (fun b => is_nul b = false) s.

(** The keysym of a lock. *)
Definition keysym_of (l : lock) : Z :=
  match l with
  | NumLock => XK_Num_Lock
  | ShiftLock => XK_Shift_Lock
  | CapsLock => XK_Caps_Lock
  end.

(** Cell [(i, j)] of the table holds the keycode bound to the keysym of
    [l]. *)
Definition cell_matches (keysyms : xcb_key_symbols_t) (r : modmap.reply)
    (l : lock) (i j : Z) : Prop :=
  modmap.keycodes r !! Z.to_nat (i * modmap.keycodes_per_modifier r + j)
  = Some (xcb_key_symbols_get_keycode keysyms (keysym_of l)).

(** Equality of labels is decidable. *)
#[local] Instance string_eq_dec : EqDecision string := String.string_dec.

(** The label [xutil_get_error] gives a code from a table. *)
Definition label_of (table : list string) (b : byte) : string :=
  match table !! Z.to_nat (byte_val b) with
  | Some s => s
  | None => decimal b
  end.

(** All 256 bytes, in order. *)
Definition all_bytes : list byte :=
  omap (fun n => Byte.of_N (N.of_nat n)) (seq 0 256).

(** An error table of 256 slots, each with handler 1 and data 2. *)
Definition handlers_old : error_handlers := replicate 256 (1, 2).

(** Whether [xutil_gettextprop] gets as far as comparing the type of the
    value with the atom of [UTF8_STRING]: the buffer and the reply pass
    the checks and the type is not [STRING]. *)
Definition asks_utf8 (X : xserver) (w atom : Z) (text : option Z) (textlen : Z)
    : bool :=
  match text, property_reply X w atom with
  | Some _, Some r =>
      negb (textlen =? 0) && negb (prop.value_len r =? 0)
      && (prop.format r =? 8) && negb (prop.type r =? STRING)
  | _, _ => false
  end.

(** Opcodes 74 and 75 share a label, and so do 76 and 77: two opcodes
    are label-mates when both lie in one of these pairs. *)
Definition label_mates (o1 o2 : byte) : Prop :=
  (byte_val o1 = 74 \/ byte_val o1 = 75) /\ (byte_val o2 = 74 \/ byte_val o2 = 75) \/
  (byte_val o1 = 76 \/ byte_val o1 = 77) /\ (byte_val o2 = 76 \/ byte_val o2 = 77).

(** The first opcode of the pair an opcode lies in, the opcode itself
    outside the two pairs. *)
Definition first_mate (o : byte) : byte :=
  match o with
  | x4b => x4a
  | x4d => x4c
  | _ => o
  end.

(** The opcodes that are the first of their pair or outside the pairs. *)
Definition first_mates : list byte :=
  List.filter (fun o => Byte.eqb (first_mate o) o) all_bytes.

(** ** Allocations *)

(** What an allocated block holds: the characters of a label, the bytes
    of a string made by [strndup], an [xutil_error_t] or a
    [class_hint_t]; the pointer fields of the structures are [None] when
    null. *)
Inductive block : Type :=
| Chars (s : string)
| Bytes (s : list byte)
| ErrorRec (request_code : Z) (request_label error_label : option Z)
| ClassHintRec (res_name res_class : option Z).

(** The live blocks, by address. *)
Abbreviation allocs := (gmap Z block).

(** An allocation: a block at an address that is not live. *)
Definition malloc (b : block) : xm allocs Z := fun w =>
  let a := stdpp.base.fresh (dom (heap w)) in
  Ret a (World (<[a := b]> (heap w)) (trace w)).

(** [free(p)]: nothing for a null pointer; the block at a live address
    goes; any other pointer is not one to free. *)
Definition free (p : option Z) : xm allocs unit := fun w =>
  match p with
  | None => Ret tt w
  | Some a =>
    match heap w !! a with
    | Some _ => Ret tt (World (delete a (heap w)) (trace w))
    | None => Fault OutOfBounds
    end
  end.

(** The structure a pointer points to. *)
Definition load_block (p : option Z) : xm allocs block := fun w =>
  match p with
  | None => Fault NullDeref
  | Some a =>
    match heap w !! a with
    | Some b => Ret b w
    | None => Fault OutOfBounds
    end
  end.

(** An assignment to the fields of the structure at a live address. *)
Definition store_block (a : Z) (b : block) : xm allocs unit := fun w =>
  match heap w !! a with
  | Some _ => Ret tt (World (<[a := b]> (heap w)) (trace w))
  | None => Fault OutOfBounds
  end.

(** The fields of the [xutil_error_t] at [p]. *)
Definition error_rec (p : option Z) : xm allocs (Z * option Z * option Z) :=
  b ← load_block p ;
  match b with
  | ErrorRec rc rl el => mret (rc, rl, el)
  | _ => crash OutOfBounds
  end.

(** Modelled from the spec: [p_new(xutil_error_t, 1)] of common/util.h,
    a fresh structure with all fields zero. *)
Definition p_new_error : xm allocs Z := malloc (ErrorRec 0 None None).

(** Modelled from the spec: [p_new(class_hint_t, 1)] of common/util.h,
    a fresh structure with all fields zero. *)
Definition p_new_class_hint : xm allocs Z := malloc (ClassHintRec None None).

(** The label for [code] from [table], in a block of its own: the
    [asprintf] of the code beyond the table, the [a_strdup] of the entry
    inside it. *)
Definition new_label (table : list string) (code : Z) : xm allocs Z :=
  if Z.of_nat (length table) <=? code
  then malloc (Chars (asprintf_d code))
  else s ← a_strdup_at table code ; malloc (Chars s).

(** [xutil_get_error] with its allocations: the value returned is the
    pointer to the record, null when the raw error is none. *)
Definition xutil_get_error_heap (e : list byte) : xm allocs (option Z) :=
  response_type ← byte_at e 0 ;
  if negb (response_type =? 0) then mret None else
  err ← p_new_error ;
  code ← byte_at e 10 ;
  '(_, rl, el) ← error_rec (Some err) ;
  store_block err (ErrorRec code rl el) ;;
  '(request_code, _, el) ← error_rec (Some err) ;
  label ← new_label xutil_request_label request_code ;
  store_block err (ErrorRec request_code (Some label) el) ;;
  error_code ← byte_at e 1 ;
  label ← new_label xutil_error_label error_code ;
  '(rc, rl, _) ← error_rec (Some err) ;
  store_block err (ErrorRec rc rl (Some label)) ;;
  mret (Some err).

(** ** xutil_delete_error *)

(** [p_delete] frees what the field points to and sets the field to
    null; the last one works on the parameter itself. *)
Definition xutil_delete_error (err : option Z) : xm allocs unit :=
  '(rc, rl, el) ← error_rec err ;
  free el ;;
  match err with
  | None => crash NullDeref
  | Some a =>
    store_block a (ErrorRec rc rl None) ;;
    '(rc, rl, el) ← error_rec err ;
    free rl ;;
    store_block a (ErrorRec rc None el) ;;
    free err
  end.

(** ** xutil_get_class_hint with its allocations *)

(** [strndup] into a block of its own. *)
Definition strndup_heap (data : list byte) (off n : Z) : xm allocs Z :=
  s ← strndup data off n ; malloc (Bytes s).

(** The fields of the [class_hint_t] at [p]. *)
Definition class_hint_rec (p : option Z) : xm allocs (option Z * option Z) :=
  b ← load_block p ;
  match b with
  | ClassHintRec rn rc => mret (rn, rc)
  | _ => crash OutOfBounds
  end.

(** [xutil_get_class_hint] with its allocations: the value returned is
    the pointer to the structure, null without a hint. *)
Definition xutil_get_class_hint_heap (X : xserver) (win : Z)
    : xm allocs (option Z) :=
  emit (Send (GetProperty false false win WM_CLASS STRING 0 2048)) ;;
  ch ← p_new_class_hint ;
  class_hint_r ← wait_reply (property_reply X win WM_CLASS) ;
  match class_hint_r with
  | None => mret None
  | Some r =>
    if negb (prop.type r =? STRING) || negb (prop.format r =? 8)
    then p_delete ;; mret None
    else
      let data := prop.value r in
      len_name ← a_strlen data 0 ;
      len_class ← a_strlen data (len_name + 1) ;
      name ← strndup_heap data 0 len_name ;
      '(_, rc) ← class_hint_rec (Some ch) ;
      store_block ch (ClassHintRec (Some name) rc) ;;
      class ← strndup_heap data (len_name + 1) len_class ;
      '(rn, _) ← class_hint_rec (Some ch) ;
      store_block ch (ClassHintRec rn (Some class)) ;;
      p_delete ;;
      mret (Some ch)
  end.

(** A reply with the two names of a terminal. *)
Definition reply_urxvt : prop.reply :=
  prop.Reply 8 3 STRING 12 (bytes_of "urxvt" ++ [NUL] ++ bytes_of "URxvt" ++ [NUL]).

(** * Properties *)

(** ** Running the monad *)

Lemma bind_run {H A B} (m : xm H A) (f : A -> xm H B) (w : world H) :
  (m ≫= f) w = match m w with Ret a w' => f a w' | Fault e => Fault e end.
Proof. reflexivity. Qed.

Lemma bind_ret_inv {H A B} (m : xm H A) (f : A -> xm H B) w b w2 :
  (m ≫= f) w = Ret b w2 ->
  exists a w1, m w = Ret a w1 /\ f a w1 = Ret b w2.
Proof.
  rewrite bind_run. destruct (m w) as [a w1|e]; [eauto | discriminate].
Qed.

Lemma emit_run {H} (e : xevent) (w : world H) :
  emit e w = Ret tt (World (heap w) (trace w ++ [e])).
Proof. reflexivity. Qed.

(** Unfolds the plumbing of the monad, leaving the memory operations. *)
Ltac xrun :=
  cbv [mbind xm_bind mret xm_ret emit wait_reply p_delete crash put_heap];
  simpl.

Lemma ssize_sub_inv {H} (a b : Z) (w : world H) r w' :
  ssize_sub a b w = Ret r w' ->
  r = a - b /\ w' = w /\ SSIZE_MIN <= a - b <= SSIZE_MAX.
Proof.
  unfold ssize_sub.
  destruct (Z.leb_spec SSIZE_MIN (a - b)), (Z.leb_spec (a - b) SSIZE_MAX);
    simpl; try discriminate.
  intros [= <- <-]. auto.
Qed.

Lemma ssize_sub_run {H} (a b : Z) (w : world H) :
  SSIZE_MIN <= a - b <= SSIZE_MAX -> ssize_sub a b w = Ret (a - b) w.
Proof.
  intros [? ?]. unfold ssize_sub.
  destruct (Z.leb_spec SSIZE_MIN (a - b)), (Z.leb_spec (a - b) SSIZE_MAX);
    simpl; (reflexivity || lia).
Qed.

Lemma memcpy_inv dst src n w u w' :
  memcpy dst src n w = Ret u w' ->
  0 <= n <= Z.of_nat (length src) /\ 0 <= dst /\
  dst + n <= Z.of_nat (length (heap w)) /\
  w' = World (list_inserts (Z.to_nat dst) (take (Z.to_nat n) src) (heap w))
             (trace w ++ [Store dst n]).
Proof.
  unfold memcpy.
  destruct (Z.leb_spec 0 n), (Z.leb_spec n (Z.of_nat (length src))),
    (Z.leb_spec 0 dst), (Z.leb_spec (dst + n) (Z.of_nat (length (heap w))));
    simpl; try discriminate.
  intros [= <-]. auto.
Qed.

Lemma memcpy_run dst src n w :
  0 <= n <= Z.of_nat (length src) -> 0 <= dst ->
  dst + n <= Z.of_nat (length (heap w)) ->
  memcpy dst src n w =
    Ret tt (World (list_inserts (Z.to_nat dst) (take (Z.to_nat n) src) (heap w))
                  (trace w ++ [Store dst n])).
Proof.
  intros. unfold memcpy.
  destruct (Z.leb_spec 0 n), (Z.leb_spec n (Z.of_nat (length src))),
    (Z.leb_spec 0 dst), (Z.leb_spec (dst + n) (Z.of_nat (length (heap w))));
    simpl; (reflexivity || lia).
Qed.

Lemma store_inv addr b w u w' :
  store addr b w = Ret u w' ->
  0 <= addr < Z.of_nat (length (heap w)) /\
  w' = World (<[Z.to_nat addr := b]> (heap w)) (trace w ++ [Store addr 1]).
Proof.
  unfold store.
  destruct (Z.leb_spec 0 addr), (Z.ltb_spec addr (Z.of_nat (length (heap w))));
    simpl; try discriminate.
  intros [= <-]. auto.
Qed.

Lemma store_run addr b w :
  0 <= addr < Z.of_nat (length (heap w)) ->
  store addr b w =
    Ret tt (World (<[Z.to_nat addr := b]> (heap w)) (trace w ++ [Store addr 1])).
Proof.
  intros. unfold store.
  destruct (Z.leb_spec 0 addr), (Z.ltb_spec addr (Z.of_nat (length (heap w))));
    simpl; (reflexivity || lia).
Qed.

Lemma for_loop_inv {H} (I : Z -> world H -> Prop) (n : nat) (i0 : Z)
    (body : Z -> xm H unit) (w : world H) :
  I i0 w ->
  (forall i w, i0 <= i < i0 + Z.of_nat n -> I i w ->
     exists w', body i w = Ret tt w' /\ I (i + 1) w') ->
  exists w', for_loop n i0 body w = Ret tt w' /\ I (i0 + Z.of_nat n) w'.
Proof.
  revert i0 w. induction n as [|n IH]; intros i0 w Hi Hstep.
  - exists w. split; [reflexivity|]. by replace (i0 + Z.of_nat 0) with i0 by lia.
  - destruct (Hstep i0 w ltac:(lia) Hi) as (w1 & Hb & Hi1).
    destruct (IH (i0 + 1) w1 Hi1) as (w2 & Hl & Hi2).
    { intros i w' Hr. apply Hstep. lia. }
    exists w2. split.
    + simpl. rewrite bind_run, Hb. exact Hl.
    + by replace (i0 + Z.of_nat (S n)) with (i0 + 1 + Z.of_nat n) by lia.
Qed.

(** ** xutil_intern_atom *)

Lemma xutil_intern_atom_run {H} X name (w : world H) :
  xutil_intern_atom X name w
  = Ret (atom_of X name) (World (heap w) (trace w ++ intern_trace X name)).
Proof.
  unfold xutil_intern_atom, atom_of, intern_trace. xrun.
  destruct (intern_reply X name) as [a|]; simpl;
    rewrite <- ?app_assoc; reflexivity.
Qed.

(** ** xutil_gettextprop: the memory after a copy *)

Lemma written_text_length a bytes t h :
  length (written_text a bytes t h) = length h.
Proof. unfold written_text. by rewrite length_insert, length_inserts. Qed.

Lemma written_text_terminator a bytes t h :
  0 <= t < Z.of_nat (length h) ->
  written_text a bytes t h !! Z.to_nat t = Some NUL.
Proof.
  intros Ht. unfold written_text. apply list_lookup_insert_eq.
  rewrite length_inserts. lia.
Qed.

Lemma written_text_bytes a bytes t h (i : nat) :
  0 <= a -> (i < length bytes)%nat ->
  a + Z.of_nat (length bytes) <= t ->
  a + Z.of_nat (length bytes) <= Z.of_nat (length h) ->
  written_text a bytes t h !! (Z.to_nat a + i)%nat = bytes !! i.
Proof.
  intros Ha Hi Ht Hh. unfold written_text.
  rewrite list_lookup_insert_ne by lia.
  rewrite list_lookup_inserts by lia.
  f_equal. lia.
Qed.

Lemma written_text_frame a bytes t h (k : nat) :
  (k < Z.to_nat a \/ Z.to_nat a + length bytes <= k)%nat ->
  k <> Z.to_nat t ->
  written_text a bytes t h !! k = h !! k.
Proof.
  intros Hk Ht. unfold written_text.
  rewrite list_lookup_insert_ne by lia.
  destruct Hk; [apply list_lookup_inserts_lt | apply list_lookup_inserts_ge]; lia.
Qed.

Lemma text_copy_short a textlen r m :
  0 <= prop.value_len r < textlen - 1 -> textlen <= SSIZE_MAX ->
  prop.value_len r <= Z.of_nat (length (prop.value r)) ->
  0 <= a -> a + prop.value_len r < Z.of_nat (length (heap m)) ->
  text_copy a textlen r m
  = Ret tt (World (written_text a (take (Z.to_nat (prop.value_len r)) (prop.value r))
                     (a + prop.value_len r) (heap m))
              (trace m ++ [Store a (prop.value_len r);
                           Store (a + prop.value_len r) 1])).
Proof.
  intros Hv Hmax Hsrc Ha Hdst. unfold text_copy.
  rewrite bind_run, ssize_sub_run by (unfold SSIZE_MIN, SSIZE_MAX in *; lia).
  destruct (Z.ltb_spec (prop.value_len r) (textlen - 1)); [|lia].
  rewrite bind_run, memcpy_run by lia.
  rewrite store_run by (simpl; rewrite length_inserts; lia).
  simpl. rewrite <- app_assoc. reflexivity.
Qed.

Lemma text_copy_trunc a textlen r m :
  2 <= textlen <= SSIZE_MAX -> textlen - 1 <= prop.value_len r ->
  textlen - 2 <= Z.of_nat (length (prop.value r)) ->
  0 <= a -> a + textlen <= Z.of_nat (length (heap m)) ->
  text_copy a textlen r m
  = Ret tt (World (written_text a (take (Z.to_nat (textlen - 2)) (prop.value r))
                     (a + (textlen - 1)) (heap m))
              (trace m ++ [Store a (textlen - 2); Store (a + (textlen - 1)) 1])).
Proof.
  intros Hl Hv Hsrc Ha Hdst. unfold text_copy.
  rewrite bind_run, ssize_sub_run by (unfold SSIZE_MIN, SSIZE_MAX in *; lia).
  destruct (Z.ltb_spec (prop.value_len r) (textlen - 1)); [lia|].
  rewrite bind_run, ssize_sub_run by (unfold SSIZE_MIN, SSIZE_MAX in *; lia).
  assert (to_size_t (textlen - 2) = textlen - 2) as ->.
  { unfold to_size_t. apply Z.mod_small. unfold SSIZE_MAX in *. lia. }
  rewrite bind_run, memcpy_run by lia.
  rewrite store_run by (simpl; rewrite length_inserts; lia).
  simpl. rewrite <- app_assoc. reflexivity.
Qed.

(** A call that comes back went through one of the two branches, inside
    the bounds of both objects. *)
Lemma text_copy_inv a textlen r m u w' :
  1 <= textlen ->
  Z.of_nat (length (heap m)) <= SSIZE_MAX ->
  text_copy a textlen r m = Ret u w' ->
  0 <= a /\
  ((prop.value_len r < textlen - 1 /\
    0 <= prop.value_len r <= Z.of_nat (length (prop.value r)) /\
    a + prop.value_len r < Z.of_nat (length (heap m)) /\
    w' = World (written_text a (take (Z.to_nat (prop.value_len r)) (prop.value r))
                  (a + prop.value_len r) (heap m))
           (trace m ++ [Store a (prop.value_len r);
                        Store (a + prop.value_len r) 1]))
   \/
   (textlen - 1 <= prop.value_len r /\ 2 <= textlen /\
    textlen - 2 <= Z.of_nat (length (prop.value r)) /\
    a + (textlen - 1) < Z.of_nat (length (heap m)) /\
    w' = World (written_text a (take (Z.to_nat (textlen - 2)) (prop.value r))
                  (a + (textlen - 1)) (heap m))
           (trace m ++ [Store a (textlen - 2); Store (a + (textlen - 1)) 1]))).
Proof.
  intros Hl Hh Hrun. unfold text_copy in Hrun.
  apply bind_ret_inv in Hrun as (lim & w1 & H1 & Hrun).
  apply ssize_sub_inv in H1 as (-> & -> & Hlim).
  destruct (Z.ltb_spec (prop.value_len r) (textlen - 1)).
  - apply bind_ret_inv in Hrun as (? & w2 & H2 & Hrun).
    apply memcpy_inv in H2 as (Hsrc & Ha & Hdst & ->).
    apply store_inv in Hrun as (Hs & ->). simpl in *.
    rewrite length_inserts in Hs.
    split; [done|]. left. rewrite <- app_assoc. auto with lia.
  - apply bind_ret_inv in Hrun as (n & w2 & H2 & Hrun).
    apply ssize_sub_inv in H2 as (-> & -> & Hn).
    apply bind_ret_inv in Hrun as (? & w3 & H3 & Hrun).
    apply memcpy_inv in H3 as (Hsrc & Ha & Hdst & ->).
    apply store_inv in Hrun as (Hs & ->). simpl in *.
    rewrite length_inserts in Hs.
    assert (2 <= textlen) as Htl.
    { destruct (Z.lt_ge_cases textlen 2) as [Hlt|]; [|done].
      assert (textlen = 1) as -> by lia.
      assert (to_size_t (1 - 2) = 18446744073709551615) as E by reflexivity.
      rewrite E in Hdst. unfold SSIZE_MAX in Hh. lia. }
    assert (to_size_t (textlen - 2) = textlen - 2) as Hsz.
    { unfold to_size_t. apply Z.mod_small. unfold SSIZE_MAX in *. lia. }
    rewrite Hsz in *.
    split; [done|]. right. rewrite <- app_assoc. auto 10 with lia.
Qed.

Lemma text_copy_trace a textlen r w u w' :
  text_copy a textlen r w = Ret u w' ->
  exists p n q, trace w' = trace w ++ [Store p n; Store q 1].
Proof.
  intros Hrun. unfold text_copy in Hrun.
  apply bind_ret_inv in Hrun as (lim & w1 & H1 & Hrun).
  apply ssize_sub_inv in H1 as (-> & -> & _).
  destruct (prop.value_len r <? textlen - 1).
  - apply bind_ret_inv in Hrun as (? & w2 & H2 & Hrun).
    apply memcpy_inv in H2 as (_ & _ & _ & ->).
    apply store_inv in Hrun as (_ & ->). simpl.
    rewrite <- app_assoc. eauto.
  - apply bind_ret_inv in Hrun as (n & w2 & H2 & Hrun).
    apply ssize_sub_inv in H2 as (-> & -> & _).
    apply bind_ret_inv in Hrun as (? & w3 & H3 & Hrun).
    apply memcpy_inv in H3 as (_ & _ & _ & ->).
    apply store_inv in Hrun as (_ & ->). simpl.
    rewrite <- app_assoc. eauto.
Qed.

Lemma stores_of_app tr1 tr2 : stores_of (tr1 ++ tr2) = stores_of tr1 ++ stores_of tr2.
Proof. apply omap_app. Qed.

(** ** xutil_gettextprop: the exit paths *)

Section TextProp.

Context (X : xserver) (w atom : Z).

Lemma gettextprop_no_buffer text textlen m :
  text = None \/ textlen = 0 ->
  xutil_gettextprop X w atom text textlen m
  = Ret false (World (heap m) (trace m ++ [text_request w atom])).
Proof.
  intros Hb. unfold xutil_gettextprop. xrun.
  destruct text as [a|]; [|reflexivity].
  destruct Hb as [?| ->]; [discriminate | reflexivity].
Qed.

Lemma gettextprop_no_reply a textlen m :
  textlen <> 0 -> property_reply X w atom = None ->
  xutil_gettextprop X w atom (Some a) textlen m
  = Ret false (World (heap m) (trace m ++ [text_request w atom; Reply false])).
Proof.
  intros Hl Hr. unfold xutil_gettextprop. xrun.
  apply Z.eqb_neq in Hl. rewrite Hl, Hr. simpl.
  rewrite <- app_assoc. reflexivity.
Qed.

Lemma gettextprop_unusable a textlen m r :
  textlen <> 0 -> property_reply X w atom = Some r ->
  prop.value_len r = 0 \/ prop.format r <> 8 ->
  xutil_gettextprop X w atom (Some a) textlen m
  = Ret false (World (heap m)
                 (trace m ++ [text_request w atom; Reply true; Release])).
Proof.
  intros Hl Hr Hu. unfold xutil_gettextprop. xrun.
  apply Z.eqb_neq in Hl. rewrite Hl, Hr. simpl.
  assert ((prop.value_len r =? 0) || negb (prop.format r =? 8) = true) as ->.
  { apply orb_true_iff. destruct Hu as [Hu|Hu].
    - left. apply Z.eqb_eq, Hu.
    - right. apply negb_true_iff, Z.eqb_neq, Hu. }
  simpl. rewrite <- !app_assoc. reflexivity.
Qed.

Lemma gettextprop_usable a textlen m r :
  textlen <> 0 -> property_reply X w atom = Some r -> usable r ->
  xutil_gettextprop X w atom (Some a) textlen m
  = let w0 := World (heap m)
                (trace m ++ [text_request w atom; Reply true] ++ type_trace X r) in
    if is_text_type X r then
      match text_copy a textlen r w0 with
      | Ret _ w1 => Ret true (World (heap w1) (trace w1 ++ [Release]))
      | Fault e => Fault e
      end
    else Ret true (World (heap w0) (trace w0 ++ [Release])).
Proof.
  intros Hl Hr [Hv Hf]. unfold xutil_gettextprop.
  rewrite bind_run, emit_run.
  apply Z.eqb_neq in Hl. rewrite Hl.
  rewrite bind_run. unfold wait_reply at 1. rewrite bind_run, emit_run. simpl.
  rewrite Hr. simpl.
  apply Z.eqb_neq in Hv. apply Z.eqb_eq in Hf. rewrite Hv, Hf. simpl.
  rewrite bind_run. unfold is_text_type, type_trace.
  destruct (prop.type r =? STRING) eqn:Ht; simpl.
  - fold (text_copy a textlen r). rewrite bind_run.
    rewrite <- !app_assoc. simpl.
    destruct (text_copy a textlen r _) as [u w1|e]; reflexivity.
  - rewrite bind_run, xutil_intern_atom_run. simpl.
    unfold mret at 1, xm_ret at 1.
    destruct (prop.type r =? atom_of X "UTF8_STRING"); simpl.
    + fold (text_copy a textlen r). rewrite bind_run.
      rewrite <- !app_assoc. simpl.
      destruct (text_copy a textlen r _) as [u w1|e]; reflexivity.
    + xrun. rewrite <- !app_assoc. reflexivity.
Qed.

Lemma stores_of_type_trace r : stores_of (type_trace X r) = [].
Proof.
  unfold type_trace, intern_trace.
  destruct (prop.type r =? STRING); [reflexivity|].
  destruct (intern_reply X "UTF8_STRING"); reflexivity.
Qed.

Lemma stores_of_text_run r tr tl :
  stores_of (tr ++ [text_request w atom; Reply true] ++ type_trace X r ++ tl)
  = stores_of tr ++ stores_of tl.
Proof.
  rewrite stores_of_app. f_equal.
  change (stores_of (type_trace X r ++ tl) = stores_of tl).
  by rewrite stores_of_app, stores_of_type_trace.
Qed.

Lemma gettextprop_other_type a textlen m r :
  textlen <> 0 -> property_reply X w atom = Some r -> usable r ->
  is_text_type X r = false ->
  xutil_gettextprop X w atom (Some a) textlen m
  = Ret true (World (heap m)
                (trace m ++ [text_request w atom; Reply true]
                   ++ type_trace X r ++ [Release])).
Proof.
  intros Hl Hr Hu Ht. rewrite (gettextprop_usable _ _ _ r) by done.
  simpl. rewrite Ht. rewrite <- !app_assoc. reflexivity.
Qed.

Lemma gettextprop_short a textlen m r :
  property_reply X w atom = Some r -> usable r -> is_text_type X r = true ->
  0 <= prop.value_len r < textlen - 1 -> textlen <= SSIZE_MAX ->
  prop.value_len r <= Z.of_nat (length (prop.value r)) ->
  0 <= a -> a + prop.value_len r < Z.of_nat (length (heap m)) ->
  xutil_gettextprop X w atom (Some a) textlen m
  = Ret true
      (World (written_text a (take (Z.to_nat (prop.value_len r)) (prop.value r))
                (a + prop.value_len r) (heap m))
         (trace m ++ [text_request w atom; Reply true] ++ type_trace X r
            ++ [Store a (prop.value_len r); Store (a + prop.value_len r) 1;
                Release])).
Proof.
  intros Hr Hu Ht Hv Hmax Hsrc Ha Hdst.
  rewrite (gettextprop_usable _ _ _ r) by (done || lia).
  simpl. rewrite Ht, text_copy_short by done.
  simpl. rewrite <- !app_assoc. reflexivity.
Qed.

Lemma gettextprop_trunc a textlen m r :
  property_reply X w atom = Some r -> usable r -> is_text_type X r = true ->
  2 <= textlen <= SSIZE_MAX -> textlen - 1 <= prop.value_len r ->
  textlen - 2 <= Z.of_nat (length (prop.value r)) ->
  0 <= a -> a + textlen <= Z.of_nat (length (heap m)) ->
  xutil_gettextprop X w atom (Some a) textlen m
  = Ret true
      (World (written_text a (take (Z.to_nat (textlen - 2)) (prop.value r))
                (a + (textlen - 1)) (heap m))
         (trace m ++ [text_request w atom; Reply true] ++ type_trace X r
            ++ [Store a (textlen - 2); Store (a + (textlen - 1)) 1; Release])).
Proof.
  intros Hr Hu Ht Hl Hv Hsrc Ha Hdst.
  rewrite (gettextprop_usable _ _ _ r) by (done || lia).
  simpl. rewrite Ht, text_copy_trunc by done.
  simpl. rewrite <- !app_assoc. reflexivity.
Qed.

(** What a call that returns [true] went through. *)
Lemma gettextprop_true_inv text textlen m w' :
  xutil_gettextprop X w atom text textlen m = Ret true w' ->
  exists a r, text = Some a /\ textlen <> 0 /\
    property_reply X w atom = Some r /\ usable r.
Proof.
  intros Hrun.
  destruct text as [a|];
    [|rewrite gettextprop_no_buffer in Hrun by auto; discriminate].
  destruct (Z.eq_dec textlen 0) as [->|Hl];
    [rewrite gettextprop_no_buffer in Hrun by auto; discriminate|].
  destruct (property_reply X w atom) as [r|] eqn:Hr;
    [|rewrite gettextprop_no_reply in Hrun by done; discriminate].
  exists a, r. repeat split; try done.
  - intros Hv. rewrite (gettextprop_unusable _ _ _ r) in Hrun by auto.
    discriminate.
  - destruct (Z.eq_dec (prop.format r) 8) as [|Hf]; [done|].
    rewrite (gettextprop_unusable _ _ _ r) in Hrun by auto.
    discriminate.
Qed.

(** The copy rule for a buffer of at least two bytes: the number of
    payload bytes copied and the index of the terminator. *)
Lemma gettextprop_copy_rule a textlen m r :
  property_reply X w atom = Some r -> usable r -> is_text_type X r = true ->
  2 <= textlen <= SSIZE_MAX ->
  Z.of_nat (length (prop.value r)) = prop.value_len r ->
  0 <= a -> a + textlen <= Z.of_nat (length (heap m)) ->
  let short := prop.value_len r <? textlen - 1 in
  let n := if short then prop.value_len r else textlen - 2 in
  let t := if short then prop.value_len r else textlen - 1 in
  exists w',
    xutil_gettextprop X w atom (Some a) textlen m = Ret true w' /\
    stores_of (trace w') = stores_of (trace m) ++ [(a, n); (a + t, 1)] /\
    (forall i, 0 <= i < n ->
       heap w' !! Z.to_nat (a + i) = prop.value r !! Z.to_nat i) /\
    heap w' !! Z.to_nat (a + t) = Some NUL.
Proof.
  intros Hr Hu Ht Hl Hwf Ha Hdst. simpl.
  destruct (Z.ltb_spec (prop.value_len r) (textlen - 1)) as [Hv|Hv].
  - eexists. split; [apply gettextprop_short; (done || lia)|]. simpl.
    assert (length (take (Z.to_nat (prop.value_len r)) (prop.value r))
            = Z.to_nat (prop.value_len r)) as Hlen by (apply length_take_le; lia).
    split_and!.
    + apply stores_of_text_run.
    + intros i Hi.
      replace (Z.to_nat (a + i)) with (Z.to_nat a + Z.to_nat i)%nat by lia.
      rewrite written_text_bytes by lia. apply lookup_take_lt. lia.
    + apply written_text_terminator. lia.
  - eexists. split; [apply gettextprop_trunc; (done || lia)|]. simpl.
    assert (length (take (Z.to_nat (textlen - 2)) (prop.value r))
            = Z.to_nat (textlen - 2)) as Hlen by (apply length_take_le; lia).
    split_and!.
    + apply stores_of_text_run.
    + intros i Hi.
      replace (Z.to_nat (a + i)) with (Z.to_nat a + Z.to_nat i)%nat by lia.
      rewrite written_text_bytes by lia. apply lookup_take_lt. lia.
    + apply written_text_terminator. lia.
Qed.

(** When the buffer, if any, has room for two bytes and the value holds
    [value_len] bytes, the call returns, and returns false exactly in
    the five cases. *)
Lemma gettextprop_false_iff text textlen m :
  (forall a, text = Some a -> textlen = 0 \/
     (2 <= textlen <= SSIZE_MAX /\ 0 <= a /\
      a + textlen <= Z.of_nat (length (heap m)))) ->
  (forall r, property_reply X w atom = Some r ->
     Z.of_nat (length (prop.value r)) = prop.value_len r) ->
  exists b w',
    xutil_gettextprop X w atom text textlen m = Ret b w' /\
    (b = false <->
       (property_reply X w atom = None \/
        (exists r, property_reply X w atom = Some r /\
           (prop.format r <> 8 \/ prop.value_len r = 0)) \/
        text = None \/ textlen = 0)).
Proof.
  intros Hbuf Hwf.
  assert (forall P : Prop, P -> false = false <-> P) as Hfalse by (by split).
  destruct text as [a|];
    [|eexists _, _; split; [by apply gettextprop_no_buffer; auto|];
      apply Hfalse; auto].
  destruct (Z.eq_dec textlen 0) as [->|Hl0];
    [eexists _, _; split; [by apply gettextprop_no_buffer; auto|];
     apply Hfalse; auto|].
  destruct (Hbuf a eq_refl) as [?|(Hl & Ha & Hdst)]; [done|].
  destruct (property_reply X w atom) as [r|] eqn:Hr;
    [|eexists _, _; split; [by apply gettextprop_no_reply|];
      apply Hfalse; auto].
  specialize (Hwf r eq_refl).
  destruct (Z.eq_dec (prop.value_len r) 0) as [Hv|Hv];
    [eexists _, _; split; [by apply (gettextprop_unusable _ _ _ r); auto|];
     apply Hfalse; eauto 10|].
  destruct (Z.eq_dec (prop.format r) 8) as [Hf|Hf];
    [|eexists _, _; split; [by apply (gettextprop_unusable _ _ _ r); auto|];
      apply Hfalse; eauto 10].
  assert (forall w', (Ret true w' : outcome (list byte) bool) = Ret true w' /\
            (true = false <->
             (Some r = None \/
              (exists r0, Some r = Some r0 /\
                 (prop.format r0 <> 8 \/ prop.value_len r0 = 0)) \/
              Some a = None \/ textlen = 0))) as Htrue.
  { intros w'. split; [done|]. split; [done|].
    intros [?|[(r0 & [= <-] & [?|?])|[?|?]]]; done. }
  destruct (is_text_type X r) eqn:Ht.
  - destruct (gettextprop_copy_rule a textlen m r)
      as (w' & -> & _); try done.
    exists true, w'. apply Htrue.
  - rewrite (gettextprop_other_type _ _ _ r) by done.
    eexists true, _. apply Htrue.
Qed.

(** ** xutil_gettextprop: the claims *)

(** C10.  On an accepted reply that takes the truncation branch
    ([value_len >= textlen - 1], [textlen >= 2]) the call returns true;
    the copy stores [textlen - 2] bytes at indices [0 .. textlen - 3],
    which then hold the first payload bytes, the terminator is stored at
    index [textlen - 1], and no store covers index [textlen - 2], which
    keeps the byte the caller's buffer held before. *)
Theorem gettextprop_truncation_gap a textlen m r :
  property_reply X w atom = Some r -> usable r -> is_text_type X r = true ->
  2 <= textlen <= SSIZE_MAX -> textlen - 1 <= prop.value_len r ->
  Z.of_nat (length (prop.value r)) = prop.value_len r ->
  0 <= a -> a + textlen <= Z.of_nat (length (heap m)) ->
  exists w',
    xutil_gettextprop X w atom (Some a) textlen m = Ret true w' /\
    stores_of (trace w')
      = stores_of (trace m) ++ [(a, textlen - 2); (a + (textlen - 1), 1)] /\
    heap w' !! Z.to_nat (a + (textlen - 2)) = heap m !! Z.to_nat (a + (textlen - 2)) /\
    (forall i, 0 <= i < textlen - 2 ->
       heap w' !! Z.to_nat (a + i) = prop.value r !! Z.to_nat i) /\
    heap w' !! Z.to_nat (a + (textlen - 1)) = Some NUL.
Proof.
  intros Hr Hu Ht Hl Hv Hwf Ha Hdst.
  eexists. split; [apply gettextprop_trunc; (done || lia)|]. simpl.
  assert (length (take (Z.to_nat (textlen - 2)) (prop.value r))
          = Z.to_nat (textlen - 2)) as Hlen by (apply length_take_le; lia).
  repeat split.
  - apply stores_of_text_run.
  - apply written_text_frame; lia.
  - intros i Hi.
    replace (Z.to_nat (a + i)) with (Z.to_nat a + Z.to_nat i)%nat by lia.
    rewrite written_text_bytes by lia.
    apply lookup_take_lt. lia.
  - apply written_text_terminator. lia.
Qed.

(** C1, as the code has it.  For every call with [textlen >= 1] that
    returns true: every store lies inside [text[0 .. textlen - 1]] and
    the bytes outside keep their value; when the value's type is neither
    [STRING] nor [UTF8_STRING] nothing is stored; otherwise a null byte
    is stored at [text[value_len]] when [value_len < textlen - 1] and at
    [text[textlen - 1]] when not, and in the latter case (so whenever
    [value_len >= textlen]) the bytes stored before the terminator,
    indices [0 .. textlen - 3], are the payload bytes at those indices,
    all of them read inside the payload. *)
Theorem gettextprop_buffer_safety text textlen m w' :
  1 <= textlen ->
  Z.of_nat (length (heap m)) <= SSIZE_MAX ->
  xutil_gettextprop X w atom text textlen m = Ret true w' ->
  exists a r stored,
    text = Some a /\ property_reply X w atom = Some r /\
    length (heap w') = length (heap m) /\
    stores_of (trace w') = stores_of (trace m) ++ stored /\
    (forall p n, (p, n) ∈ stored -> a <= p /\ 0 <= n /\ p + n <= a + textlen) /\
    (forall k : nat, Z.of_nat k < a \/ a + textlen <= Z.of_nat k ->
       heap w' !! k = heap m !! k) /\
    (is_text_type X r = false -> stored = [] /\ heap w' = heap m) /\
    (is_text_type X r = true ->
       (prop.value_len r < textlen - 1 ->
          heap w' !! Z.to_nat (a + prop.value_len r) = Some NUL) /\
       (textlen - 1 <= prop.value_len r ->
          heap w' !! Z.to_nat (a + (textlen - 1)) = Some NUL /\
          forall i, 0 <= i < textlen - 2 ->
            is_Some (prop.value r !! Z.to_nat i) /\
            heap w' !! Z.to_nat (a + i) = prop.value r !! Z.to_nat i)).
Proof.
  intros Hl Hh Hrun.
  destruct (gettextprop_true_inv _ _ _ _ Hrun)
    as (a & r & -> & Hl0 & Hr & Hu).
  rewrite (gettextprop_usable _ _ _ r) in Hrun by done.
  simpl in Hrun. exists a, r.
  destruct (is_text_type X r) eqn:Ht.
  - destruct (text_copy a textlen r _) as [u w1|e] eqn:Hc; [|discriminate].
    injection Hrun as <-.
    apply text_copy_inv in Hc as (Ha & Hc); [|done..].
    destruct Hc as [(Hv & Hsrc & Hdst & ->)|(Hv & Hl2 & Hsrc & Hdst & ->)];
      simpl in Hdst; simpl.
    + exists [(a, prop.value_len r); (a + prop.value_len r, 1)].
      assert (length (take (Z.to_nat (prop.value_len r)) (prop.value r))
              = Z.to_nat (prop.value_len r)) as Hlen by (apply length_take_le; lia).
      split_and!; try done.
      * apply written_text_length.
      * rewrite <- !app_assoc. apply stores_of_text_run.
      * intros p n Hin. apply list_elem_of_In in Hin.
        destruct Hin as [[= <- <-]|[[= <- <-]|[]]]; lia.
      * intros k Hk. apply written_text_frame; lia.
      * intros _. split; [intros _|intros ?; lia].
        apply written_text_terminator. lia.
    + exists [(a, textlen - 2); (a + (textlen - 1), 1)].
      assert (length (take (Z.to_nat (textlen - 2)) (prop.value r))
              = Z.to_nat (textlen - 2)) as Hlen by (apply length_take_le; lia).
      split_and!; try done.
      * apply written_text_length.
      * rewrite <- !app_assoc. apply stores_of_text_run.
      * intros p n Hin. apply list_elem_of_In in Hin.
        destruct Hin as [[= <- <-]|[[= <- <-]|[]]]; lia.
      * intros k Hk. apply written_text_frame; lia.
      * intros _. split; [intros ?; lia|intros _].
        split; [apply written_text_terminator; lia|].
        intros i Hi. split; [apply lookup_lt_is_Some_2; lia|].
        replace (Z.to_nat (a + i)) with (Z.to_nat a + Z.to_nat i)%nat by lia.
        rewrite written_text_bytes by lia.
        apply lookup_take_lt. lia.
  - injection Hrun as <-. simpl. exists [].
    split_and!; try done.
    + rewrite <- !app_assoc.
      apply (stores_of_text_run r (trace m) [Release]).
    + intros p n Hin. by apply elem_of_nil in Hin.
Qed.

(** C4, as the code has it.  When the buffer is null or its length is
    zero the call returns false with the caller's memory as it was; the
    property request is the one thing that happened: it was sent before
    the check, and no reply was waited for. *)
Theorem gettextprop_buffer_precheck text textlen m :
  text = None \/ textlen = 0 ->
  exists w',
    xutil_gettextprop X w atom text textlen m = Ret false w' /\
    heap w' = heap m /\
    trace w' = trace m ++
      [Send (GetProperty false false w atom XCB_GET_PROPERTY_TYPE_ANY 0 1000000)].
Proof.
  intros Hb. eexists. split; [by apply gettextprop_no_buffer|]. done.
Qed.

End TextProp.

(** C1 fails as stated: ["hello"] into a 16-byte buffer returns true and
    leaves [text[15]] as it was, not zero. *)
Lemma gettextprop_last_byte_kept :
  exists w',
    xutil_gettextprop (server_with (Some reply_hello)) 1 2 (Some 0) 16 (fresh 16)
      = Ret true w' /\
    heap w' !! 15%nat = Some "x"%byte /\ "x"%byte <> NUL.
Proof.
  eexists. split; [vm_compute; reflexivity|].
  split; [reflexivity | discriminate].
Qed.

(** The safety theorem on twenty ['A'] into a buffer of eight bytes that
    sits inside an object of ten: the terminator is at index 7 and the
    byte after the buffer keeps its value. *)
Lemma gettextprop_buffer_safety_witness :
  exists w',
    xutil_gettextprop (server_with (Some reply_20A)) 1 2 (Some 0) 8 (fresh 10)
      = Ret true w' /\
    heap w' !! 7%nat = Some NUL /\ heap w' !! 8%nat = Some "x"%byte.
Proof.
  eexists. split; [vm_compute; reflexivity|].
  destruct (gettextprop_buffer_safety (server_with (Some reply_20A)) 1 2
              (Some 0) 8 (fresh 10) _ ltac:(lia) ltac:(vm_compute; discriminate)
              eq_refl)
    as (a & r & stored & [= <-] & [= <-] & _ & _ & _ & Hframe & _ & Htext).
  split.
  - apply (Htext eq_refl). simpl. lia.
  - apply (Hframe 8%nat). lia.
Defined.

(** The gap on the same call: index 6 keeps the caller's ['x']. *)
Lemma gettextprop_truncation_gap_witness :
  exists w',
    xutil_gettextprop (server_with (Some reply_20A)) 1 2 (Some 0) 8 (fresh 10)
      = Ret true w' /\
    heap w' !! 6%nat = Some "x"%byte /\ heap w' !! 7%nat = Some NUL.
Proof.
  destruct (gettextprop_truncation_gap (server_with (Some reply_20A)) 1 2 0 8
              (fresh 10) reply_20A eq_refl
              ltac:(split; [simpl; lia | reflexivity]) eq_refl
              ltac:(vm_compute; split; discriminate) ltac:(simpl; lia)
              eq_refl ltac:(lia) ltac:(simpl; lia))
    as (w' & Hrun & _ & Hgap & _ & Hterm).
  exists w'. split; [exact Hrun|]. split; [exact Hgap | exact Hterm].
Defined.

(** C2 against the code at a one-byte buffer.  The reply is accepted and
    [value_len >= textlen - 1], so the claim has [textlen - 2] bytes
    copied (none) and the terminator at index 0; the code hands
    [textlen - 2 = -1] to [memcpy] as the [size_t] [2^64 - 1], which
    leaves both the payload and the caller's object. *)
Theorem gettextprop_one_byte_copy_size :
  is_text_type (server_with (Some reply_utf8)) reply_utf8 = true /\
  usable reply_utf8 /\
  to_size_t (1 - 2) = 2 ^ 64 - 1 /\
  xutil_gettextprop (server_with (Some reply_utf8)) 1 2 (Some 0) 1 (fresh 4)
    = Fault OutOfBounds.
Proof. repeat split; (reflexivity || discriminate). Qed.

(** C3 against the code at a one-byte buffer.  None of the five cases
    holds (the reply is present, of format 8 and not empty, the buffer
    is not null and its length is 1), and the call does not return
    true: the copy leaves the payload and the caller's object. *)
Theorem gettextprop_one_byte_buffer :
  property_reply (server_with (Some reply_hello)) 1 2 = Some reply_hello /\
  prop.format reply_hello = 8 /\ prop.value_len reply_hello <> 0 /\
  xutil_gettextprop (server_with (Some reply_hello)) 1 2 (Some 0) 1 (fresh 1)
    = Fault OutOfBounds.
Proof. repeat split; (reflexivity || discriminate). Qed.

(** C4 fails as stated: with a null buffer the request has gone out
    when the call returns false, and a negative length is not rejected
    (the call returns true on a value that is not text). *)
Lemma gettextprop_request_precedes_check :
  (exists w',
     xutil_gettextprop (server_with None) 1 2 None 16 (fresh 0) = Ret false w' /\
     Send (GetProperty false false 1 2 XCB_GET_PROPERTY_TYPE_ANY 0 1000000)
       ∈ trace w') /\
  (exists w',
     xutil_gettextprop (server_with (Some reply_compound)) 1 2 (Some 0) (-1)
       (fresh 4) = Ret true w').
Proof.
  split; eexists; [split|]; [vm_compute; reflexivity| |vm_compute; reflexivity].
  apply list_elem_of_In. left. reflexivity.
Qed.

(** The check on a buffer of length zero. *)
Lemma gettextprop_buffer_precheck_witness :
  exists w',
    xutil_gettextprop (server_with (Some reply_hello)) 1 2 (Some 0) 0 (fresh 4)
      = Ret false w' /\
    heap w' = heap (fresh 4) /\
    trace w' = trace (fresh 4) ++
      [Send (GetProperty false false 1 2 XCB_GET_PROPERTY_TYPE_ANY 0 1000000)].
Proof.
  apply (gettextprop_buffer_precheck (server_with (Some reply_hello)) 1 2
           (Some 0) 0 (fresh 4)).
  right. reflexivity.
Defined.

(** ** xutil_get_transient_for_hint *)

(** C6.  If the reply is absent, or its type is not [WINDOW], or its
    format is not 32, or its length is zero, the output window is set to
    [XCB_NONE] and the result is false; otherwise the output window is
    the first 32-bit unit of the payload and the result is true.  The
    payload of a reply holds [length] units of four bytes. *)
Theorem get_transient_for_hint_exact X win m :
  (forall r, property_reply X win WM_TRANSIENT_FOR = Some r ->
     Z.of_nat (length (prop.value r)) = 4 * prop.length r) ->
  (property_reply X win WM_TRANSIENT_FOR = None \/
   (exists r, property_reply X win WM_TRANSIENT_FOR = Some r /\
      (prop.type r <> WINDOW \/ prop.format r <> 32 \/ prop.length r = 0)) ->
   exists w', xutil_get_transient_for_hint X win m = Ret false w' /\
              heap w' = XCB_NONE) /\
  (forall r, property_reply X win WM_TRANSIENT_FOR = Some r ->
     prop.type r = WINDOW -> prop.format r = 32 -> prop.length r <> 0 ->
     exists w' b0 b1 b2 b3 rest,
       prop.value r = b0 :: b1 :: b2 :: b3 :: rest /\
       xutil_get_transient_for_hint X win m = Ret true w' /\
       heap w' = le32 b0 b1 b2 b3).
Proof.
  intros Hwf. unfold xutil_get_transient_for_hint. xrun. split.
  - intros [->|(r & -> & Hbad)]; simpl; [eauto|].
    assert (negb (prop.type r =? WINDOW) || negb (prop.format r =? 32)
            || (prop.length r =? 0) = true) as ->; [|simpl; eauto].
    rewrite !orb_true_iff, !negb_true_iff, !Z.eqb_neq, Z.eqb_eq. tauto.
  - intros r Hr Ht Hf Hl. specialize (Hwf r Hr). rewrite Hr. simpl.
    apply Z.eqb_eq in Ht, Hf. apply Z.eqb_neq in Hl. rewrite Ht, Hf, Hl. simpl.
    apply Z.eqb_neq in Hl.
    destruct (prop.value r) as [|b0 [|b1 [|b2 [|b3 rest]]]]; simpl in Hwf; try lia.
    unfold load32. simpl. eauto 10.
Qed.

(** A reply of one unit [01 02 03 04] gives window [0x04030201]. *)
Lemma get_transient_for_hint_exact_witness :
  exists w',
    xutil_get_transient_for_hint (server_with (Some reply_window)) 9 (World 77 [])
      = Ret true w' /\
    heap w' = 0x04030201.
Proof.
  destruct (get_transient_for_hint_exact (server_with (Some reply_window)) 9
              (World 77 []) ltac:(intros r [= <-]; reflexivity))
    as [_ Hok].
  destruct (Hok reply_window eq_refl eq_refl eq_refl ltac:(discriminate))
    as (w' & b0 & b1 & b2 & b3 & rest & [= <- <- <- <- <-] & Hrun & Hw).
  exists w'. split; [exact Hrun | exact Hw].
Defined.

(** ** xutil_get_error *)

Lemma asprintf_d_byte (b : byte) : asprintf_d (byte_val b) = decimal b.
Proof.
  unfold asprintf_d, decimal, byte_val.
  destruct (Byte.to_N b); reflexivity.
Qed.

Lemma byte_val_range (b : byte) : 0 <= byte_val b <= 255.
Proof.
  destruct b; vm_compute; split; discriminate.
Qed.

(** The label chosen for [n] from [table]: the entry when [n] is inside
    the table, the decimal text beyond it. *)
Lemma label_run {H} (table : list string) (b : byte) (w : world H) :
  exists s,
    (if Z.of_nat (length table) <=? byte_val b
     then mret (asprintf_d (byte_val b))
     else a_strdup_at table (byte_val b)) w = Ret s w /\
    (byte_val b < Z.of_nat (length table) ->
       table !! Z.to_nat (byte_val b) = Some s) /\
    (Z.of_nat (length table) <= byte_val b -> s = decimal b).
Proof.
  pose proof (byte_val_range b) as Hb.
  destruct (Z.leb_spec (Z.of_nat (length table)) (byte_val b)) as [Hle|Hlt].
  - exists (asprintf_d (byte_val b)). split; [reflexivity|].
    split; [lia|]. intros _. apply asprintf_d_byte.
  - unfold a_strdup_at.
    destruct (lookup_lt_is_Some_2 table (Z.to_nat (byte_val b))) as [s Hs]; [lia|].
    rewrite Hs. exists s. split; [reflexivity|]. split; [done|lia].
Qed.

(** C7.  For a raw error with a zero [response_type], of error code [c]
    and with [o] at byte offset 10: the record carries [o] as request
    code; the error label is the entry of the 18-entry table for codes
    0..17 and the decimal text of the code for 18..255; the request
    label is the entry of the 128-entry table for an opcode below 128
    and the decimal text of the opcode from 128 on; opcodes 1, 16, 127
    and 200 give ["CreateWindow"], ["InternAtom"], ["NoOperation"] and
    ["200"]. *)
Theorem get_error_labels (e : list byte) (c o : byte) (w : world unit) :
  e !! 0%nat = Some x00 -> e !! 1%nat = Some c -> e !! 10%nat = Some o ->
  exists err,
    xutil_get_error e w = Ret (Some err) w /\
    request_code err = byte_val o /\
    length xutil_error_label = 18%nat /\
    length xutil_request_label = 128%nat /\
    (0 <= byte_val c <= 17 ->
       xutil_error_label !! Z.to_nat (byte_val c) = Some (error_label err)) /\
    (18 <= byte_val c <= 255 -> error_label err = decimal c) /\
    (byte_val o < 128 ->
       xutil_request_label !! Z.to_nat (byte_val o) = Some (request_label err)) /\
    (128 <= byte_val o -> request_label err = decimal o) /\
    (byte_val o = 1 -> request_label err = "CreateWindow"%string) /\
    (byte_val o = 16 -> request_label err = "InternAtom"%string) /\
    (byte_val o = 127 -> request_label err = "NoOperation"%string) /\
    (byte_val o = 200 -> request_label err = "200"%string).
Proof.
  intros H0 H1 H10. unfold xutil_get_error, byte_at.
  remember xutil_request_label as rt eqn:Hrt.
  remember xutil_error_label as et eqn:Het.
  rewrite bind_run, H0. simpl.
  rewrite bind_run, H10. simpl.
  destruct (label_run rt o w) as (rl & Hrl & Hrin & Hrout).
  rewrite bind_run, Hrl.
  rewrite bind_run, H1. simpl.
  destruct (label_run et c w) as (el & Hel & Hein & Heout).
  rewrite bind_run, Hel.
  eexists. split; [reflexivity|]. simpl. subst rt et.
  change (Z.of_nat (length xutil_request_label)) with 128 in *.
  change (Z.of_nat (length xutil_error_label)) with 18 in *.
  split_and!; try done.
  - intros ?. apply Hein. lia.
  - intros ?. apply Heout. lia.
  - intros Ho. rewrite Ho in Hrin. by injection (Hrin ltac:(lia)) as <-.
  - intros Ho. rewrite Ho in Hrin. by injection (Hrin ltac:(lia)) as <-.
  - intros Ho. rewrite Ho in Hrin. by injection (Hrin ltac:(lia)) as <-.
  - intros Ho. rewrite (Hrout ltac:(lia)).
    rewrite <- asprintf_d_byte, Ho. reflexivity.
Qed.

(** Error code 3 raised by opcode 16: [BadWindow] from [InternAtom]. *)
Lemma get_error_labels_witness :
  exists err,
    xutil_get_error (raw_error x00 x03 x10) (World tt []) = Ret (Some err) (World tt []) /\
    request_code err = 16 /\
    error_label err = "BadWindow"%string /\
    request_label err = "InternAtom"%string.
Proof.
  destruct (get_error_labels (raw_error x00 x03 x10) x03 x10 (World tt [])
              eq_refl eq_refl eq_refl)
    as (err & Hrun & Hcode & _ & _ & Hel & _ & _ & _ & _ & Hrl & _).
  exists err. split; [exact Hrun|]. split; [exact Hcode|].
  split; [|apply Hrl; reflexivity].
  specialize (Hel ltac:(vm_compute; split; discriminate)).
  by injection Hel as <-.
Defined.

(** A raw error whose [response_type] is not zero gives no record. *)
Lemma get_error_not_an_error (e : list byte) (t : byte) (w : world unit) :
  e !! 0%nat = Some t -> t <> x00 -> xutil_get_error e w = Ret None w.
Proof.
  intros H0 Ht. unfold xutil_get_error, byte_at. rewrite bind_run, H0. simpl.
  destruct t; try done.
Qed.

(** ** xutil_get_class_hint *)

Lemma strlen_app (s t : list byte) :
  Forall (fun b => is_nul b = false) s ->
  strlen (s ++ NUL :: t) = Some (Z.of_nat (length s)).
Proof.
  induction 1 as [|b s Hb _ IH]; [reflexivity|].
  simpl. rewrite Hb, IH. simpl. f_equal. lia.
Qed.

Lemma strndup_bytes_app (s t : list byte) :
  Forall (fun b => is_nul b = false) s ->
  strndup_bytes (s ++ t) (length s) = Some s.
Proof.
  induction 1 as [|b s Hb _ IH]; [reflexivity|].
  simpl. rewrite Hb, IH. reflexivity.
Qed.

Lemma a_strlen_run {H} (data : list byte) (off n : Z) (w : world H) :
  0 <= off -> strlen (drop (Z.to_nat off) data) = Some n ->
  a_strlen data off w = Ret n w.
Proof.
  intros Hoff Hn. unfold a_strlen.
  destruct (Z.ltb_spec off 0); [lia|]. by rewrite Hn.
Qed.

Lemma strndup_run {H} (data : list byte) (off n : Z) (s : list byte)
    (w : world H) :
  0 <= off -> 0 <= n ->
  strndup_bytes (drop (Z.to_nat off) data) (Z.to_nat n) = Some s ->
  strndup data off n w = Ret s w.
Proof.
  intros Hoff Hn Hs. unfold strndup.
  destruct (Z.ltb_spec off 0); [lia|].
  destruct (Z.ltb_spec n 0); [lia|]. simpl. by rewrite Hs.
Qed.

Lemma a_strlen_inv {H} (data : list byte) (off n : Z) (w w' : world H) :
  a_strlen data off w = Ret n w' -> w' = w.
Proof.
  unfold a_strlen. destruct (off <? 0); [discriminate|].
  destruct (strlen _); [|discriminate]. by intros [= _ <-].
Qed.

Lemma strndup_inv {H} (data : list byte) (off n : Z) s (w w' : world H) :
  strndup data off n w = Ret s w' -> w' = w.
Proof.
  unfold strndup. destruct ((off <? 0) || (n <? 0)); [discriminate|].
  destruct (strndup_bytes _ _); [|discriminate]. by intros [= _ <-].
Qed.

(** The splitting rule on a payload that holds both terminators: the
    instance name is the bytes before the first null byte, the class
    name the bytes after it up to the next null byte. *)
Lemma get_class_hint_split X win m r (name class rest : list byte) :
  property_reply X win WM_CLASS = Some r ->
  prop.type r = STRING -> prop.format r = 8 ->
  prop.value r = name ++ NUL :: class ++ NUL :: rest ->
  Forall (fun b => is_nul b = false) name ->
  Forall (fun b => is_nul b = false) class ->
  xutil_get_class_hint X win m
  = Ret (Some (ClassHint name class))
      (World (heap m) (trace m ++ [class_request win; Reply true; Release])).
Proof.
  intros Hr Ht Hf Hv Hname Hclass.
  destruct r as [fmt len ty vl v]. simpl in Ht, Hf, Hv. subst ty fmt v.
  assert (forall k, 0 <= k ->
            drop (Z.to_nat (Z.of_nat (length name) + 1))
              (name ++ NUL :: class ++ NUL :: rest)
            = class ++ NUL :: rest) as Hdrop.
  { intros _ _.
    replace (Z.to_nat (Z.of_nat (length name) + 1))
      with (length name + 1)%nat by lia.
    rewrite <- drop_drop, drop_app_length. reflexivity. }
  specialize (Hdrop 0 ltac:(lia)).
  unfold xutil_get_class_hint.
  rewrite bind_run, emit_run. unfold wait_reply.
  rewrite !bind_run, emit_run, Hr. simpl.
  rewrite bind_run, (a_strlen_run _ _ (Z.of_nat (length name)))
    by (lia || by apply strlen_app).
  rewrite bind_run, (a_strlen_run _ _ (Z.of_nat (length class)))
    by (lia || by rewrite Hdrop; apply strlen_app).
  rewrite bind_run, (strndup_run _ _ _ name)
    by (lia || by rewrite Nat2Z.id; apply strndup_bytes_app).
  rewrite bind_run, (strndup_run _ _ _ class)
    by (lia || by rewrite Hdrop, Nat2Z.id; apply strndup_bytes_app).
  xrun. rewrite <- !app_assoc. reflexivity.
Qed.

Lemma get_class_hint_no_reply X win m :
  property_reply X win WM_CLASS = None ->
  xutil_get_class_hint X win m
  = Ret None (World (heap m) (trace m ++ [class_request win; Reply false])).
Proof.
  intros Hr. unfold xutil_get_class_hint. xrun. rewrite Hr. simpl.
  rewrite <- app_assoc. reflexivity.
Qed.

(** C5 against the code.  On a payload without a null byte (["abcd"]),
    and on one whose only null byte is its last byte (["abc\0"], the
    second string starts past the reply), the reply is accepted and the
    [strlen] scans leave the bytes of the reply. *)
Theorem get_class_hint_scans_past_reply :
  Forall (fun b => is_nul b = false) (prop.value reply_abcd) /\
  xutil_get_class_hint (server_with (Some reply_abcd)) 7 (World tt [])
    = Fault OutOfBounds /\
  xutil_get_class_hint (server_with (Some reply_abc0)) 7 (World tt [])
    = Fault OutOfBounds.
Proof.
  split; [|split; reflexivity].
  repeat constructor.
Qed.

(** ** xutil_getlockmask *)

(** C8 against the code.  Without a modifier-mapping reply the first
    test of the inner loop reads [keycodes_per_modifier] through the
    null reply: the call faults, whatever the caller passes. *)
Theorem getlockmask_absent_reply p i keysyms m :
  xutil_getlockmask (XServer p i None) keysyms m = Fault NullDeref.
Proof. reflexivity. Qed.

Lemma mask_of_set_mask l l' v h :
  mask_of l (set_mask l' v h) = if decide (l = l') then Some v else mask_of l h.
Proof. destruct l, l'; reflexivity. Qed.

Lemma selects_nonnull keysyms h kc l :
  selects keysyms h kc = Some l -> is_Some (mask_of l h).
Proof.
  unfold selects.
  repeat match goal with
         | |- context [bool_decide ?P && ?c] =>
             destruct (bool_decide_reflect P); simpl; [destruct c|]
         end; intros [= <-]; done.
Qed.

(** [selects] looks at the masks only to see which pointers are null. *)
Lemma selects_same_null keysyms h h0 kc :
  (forall l, is_Some (mask_of l h) <-> is_Some (mask_of l h0)) ->
  selects keysyms h kc = selects keysyms h0 kc.
Proof.
  intros Hn. unfold selects.
  rewrite (bool_decide_ext _ _ (Hn NumLock)).
  rewrite (bool_decide_ext _ _ (Hn ShiftLock)).
  rewrite (bool_decide_ext _ _ (Hn CapsLock)). reflexivity.
Qed.

(** One cell of the scan: the selected lock, if any, gets the mask. *)
Lemma lockmask_cell_run keysyms kc mask w :
  lockmask_cell keysyms kc mask w
  = match selects keysyms (heap w) kc with
    | Some l => Ret tt (World (set_mask l mask (heap w)) (trace w ++ [StoreMask l]))
    | None => Ret tt w
    end.
Proof.
  unfold lockmask_cell, selects, mask_nonnull, store_mask,
    xcb_key_symbols_get_keycode.
  destruct w as [[num shift caps] tr]. xrun.
  destruct num, shift, caps; simpl;
    repeat match goal with
           | |- context [if ?c then _ else _] => destruct c; simpl
           end; reflexivity.
Qed.

Lemma stores_nonnull_snoc h0 evs l :
  stores_nonnull h0 evs -> is_Some (mask_of l h0) ->
  stores_nonnull h0 (evs ++ [StoreMask l]).
Proof.
  intros Hevs Hl l' Hin. apply elem_of_app in Hin as [Hin|Hin]; [by apply Hevs|].
  apply list_elem_of_singleton in Hin. by injection Hin as ->.
Qed.

Section Scan.

Context (keysyms : xcb_key_symbols_t) (r : modmap.reply) (h0 : lockmasks).

Lemma scanned_same_null n h :
  scanned keysyms r h0 n h ->
  forall l, is_Some (mask_of l h) <-> is_Some (mask_of l h0).
Proof.
  intros Hs l. specialize (Hs l).
  destruct (mask_of l h0) as [v0|].
  - destruct Hs as [(k & _ & _ & _ & ->)|(_ & ->)]; split; eauto.
  - rewrite Hs. done.
Qed.

Lemma scanned_start : scanned keysyms r h0 0 h0.
Proof.
  intros l. destruct (mask_of l h0) as [v0|] eqn:Hl; [|done].
  right. split; [intros k ?; lia | done].
Qed.

(** Position [n] of the scan, in row [i]. *)
Lemma scanned_step n h kc i :
  scanned keysyms r h0 n h -> 0 <= n ->
  modmap.keycodes r !! Z.to_nat n = Some kc ->
  n / modmap.keycodes_per_modifier r = i ->
  scanned keysyms r h0 (n + 1)
    (match selects keysyms h0 kc with
     | Some l => set_mask l (shl1 i) h
     | None => h
     end).
Proof.
  intros Hs Hn Hkc Hrow l. specialize (Hs l).
  assert (forall l', hit keysyms h0 r l' n <-> selects keysyms h0 kc = Some l')
    as Hhit.
  { intros l'. unfold hit. rewrite Hkc. split; [intros (? & [= <-] & ?)|]; eauto. }
  assert (mask_of l (match selects keysyms h0 kc with
                     | Some l' => set_mask l' (shl1 i) h
                     | None => h
                     end)
          = if decide (selects keysyms h0 kc = Some l)
            then Some (shl1 i) else mask_of l h) as ->.
  { destruct (selects keysyms h0 kc) as [l'|]; [|by rewrite decide_False].
    rewrite mask_of_set_mask.
    destruct (decide (l = l')) as [->|Hne];
      [by rewrite decide_True | rewrite decide_False; congruence]. }
  destruct (decide (selects keysyms h0 kc = Some l)) as [Hsel|Hsel].
  - destruct (selects_nonnull _ _ _ _ Hsel) as [v0 Hv0]. rewrite Hv0.
    left. exists n. split_and!; [lia | lia | by apply Hhit | intros; lia |].
    by rewrite Hrow.
  - destruct (mask_of l h0) as [v0|]; [|done].
    destruct Hs as [(k & Hk & Hhk & Hlast & Hm)|(Hnone & Hm)].
    + left. exists k. split_and!; [lia | lia | done | | done].
      intros k' Hk'. destruct (decide (k' = n)) as [->|]; [by rewrite Hhit|].
      apply Hlast. lia.
    + right. split; [|done].
      intros k Hk. destruct (decide (k = n)) as [->|]; [by rewrite Hhit|].
      apply Hnone. lia.
Qed.

End Scan.

#[local] Arguments for_loop : simpl never.

(** The whole scan of a table of 8 rows: the call returns, with the
    masks as [scanned] describes them after all [8 * keycodes_per_modifier]
    positions. *)
Lemma getlockmask_scan X keysyms m r :
  modmap_reply X = Some r ->
  0 <= modmap.keycodes_per_modifier r ->
  Z.of_nat (length (modmap.keycodes r)) = 8 * modmap.keycodes_per_modifier r ->
  exists w',
    xutil_getlockmask X keysyms m = Ret tt w' /\
    scanned keysyms r (heap m) (8 * modmap.keycodes_per_modifier r) (heap w') /\
    exists evs, trace w' = trace m ++ evs /\ stores_nonnull (heap m) evs.
Proof.
  intros Hr HK Hlen. set (K := modmap.keycodes_per_modifier r) in *.
  set (Inv := fun (n : Z) (w : world lockmasks) =>
    scanned keysyms r (heap m) n (heap w) /\
    exists evs, trace w = trace m ++ evs /\ stores_nonnull (heap m) evs).
  unfold xutil_getlockmask.
  rewrite bind_run, emit_run. unfold wait_reply.
  rewrite !bind_run, emit_run, Hr. simpl. rewrite bind_run.
  match goal with
  | |- context [for_loop 8 0 ?body ?w0] =>
      destruct (for_loop_inv (fun i w => Inv (i * K) w) 8 0 body w0)
        as (w1 & Hrun & Hs & evs & Htr & Hnn)
  end.
  - split; [apply scanned_start|]. simpl.
    exists [Send GetModifierMapping; Reply true].
    split; [by rewrite <- app_assoc|].
    intros l Hin. apply list_elem_of_In in Hin. simpl in Hin.
    destruct Hin as [?|[?|[]]]; discriminate.
  - intros i w Hi HI. rewrite bind_run. simpl. fold K.
    match goal with
    | |- context [for_loop (Z.to_nat K) 0 ?body w] =>
        destruct (for_loop_inv (fun j w => Inv (i * K + j) w) (Z.to_nat K) 0
                    body w) as (w2 & Hrun2 & HI2)
    end.
    + by replace (i * K + 0) with (i * K) by lia.
    + intros j wj Hj [Hsj (evs & Htr & Hnn)].
      rewrite bind_run. simpl. rewrite bind_run.
      destruct (Z.ltb_spec (i * K + j) 0); [nia|].
      destruct (lookup_lt_is_Some_2 (modmap.keycodes r) (Z.to_nat (i * K + j)))
        as [kc Hkc]; [nia|].
      rewrite Hkc. simpl. rewrite lockmask_cell_run.
      rewrite (selects_same_null _ _ (heap m))
        by (by apply (scanned_same_null keysyms r _ (i * K + j))).
      assert ((i * K + j) / K = i) as Hrow.
      { rewrite Z.div_add_l by lia. rewrite Z.div_small by lia. lia. }
      pose proof (scanned_step _ _ _ _ _ kc i Hsj ltac:(nia) Hkc Hrow) as Hstep.
      replace (i * K + (j + 1)) with (i * K + j + 1) by lia.
      destruct (selects keysyms (heap m) kc) as [l|] eqn:Hsel.
      * eexists. split; [reflexivity|]. split; [exact Hstep|]. simpl.
        exists (evs ++ [StoreMask l]). rewrite Htr, <- app_assoc.
        split; [done|].
        apply stores_nonnull_snoc; [done|]. by eapply selects_nonnull.
      * eexists. split; [reflexivity|]. split; [exact Hstep|]. eauto.
    + exists w2. split; [exact Hrun2|].
      replace ((i + 1) * K) with (i * K + (0 + Z.of_nat (Z.to_nat K))) by lia.
      exact HI2.
  - rewrite Hrun. xrun. eexists. split; [reflexivity|]. simpl.
    split; [exact Hs|].
    exists (evs ++ [Release]). rewrite Htr, <- app_assoc. split; [done|].
    intros l Hin. apply elem_of_app in Hin as [Hin|Hin]; [by apply Hnn|].
    apply list_elem_of_singleton in Hin. discriminate.
Qed.

(** C9 fails as stated: with Num Lock and Shift Lock bound to the same
    keycode 5, cell (0, 0) holds the keycode bound to [XK_Shift_Lock]
    and the shift pointer is non-null, yet nothing is stored through it:
    the shift mask keeps 77 instead of [1 << 0]. *)
Lemma getlockmask_shared_keycode :
  let keysyms := keysyms_of 5 5 9 in
  let m := World (LockMasks (Some 70) (Some 77) (Some 0)) [] in
  modmap.keycodes modmap_one !! 0%nat
    = Some (xcb_key_symbols_get_keycode keysyms XK_Shift_Lock) /\
  exists w',
    xutil_getlockmask (server_modmap modmap_one) keysyms m = Ret tt w' /\
    numlockmask (heap w') = Some (shl1 0) /\
    shiftlockmask (heap w') = Some 77 /\ 77 <> shl1 0 /\
    StoreMask ShiftLock ∉ trace w'.
Proof.
  simpl. split; [reflexivity|].
  eexists. split; [vm_compute; reflexivity|]. simpl.
  split_and!; [reflexivity | reflexivity | discriminate |].
  intros Hin. apply list_elem_of_In in Hin. simpl in Hin.
  repeat destruct Hin as [?|Hin]; (discriminate || done).
Qed.

(** C9, as the code has it.  For a table of 8 rows of K keycodes, each
    cell selects at most one lock: the first of Num Lock, Shift Lock and
    Caps Lock whose pointer is non-null and whose keysym is bound to the
    cell's keycode.  The call returns; stores go through non-null
    pointers only, and a null pointer stays null; the cell behind a
    non-null pointer holds [1 << i] for the last cell [(i, j)], in
    row-major order, that selected its lock, and its value from before
    the call when no cell did. *)
Theorem getlockmask_last_selected X keysyms m r :
  modmap_reply X = Some r ->
  0 <= modmap.keycodes_per_modifier r ->
  Z.of_nat (length (modmap.keycodes r)) = 8 * modmap.keycodes_per_modifier r ->
  exists w',
    xutil_getlockmask X keysyms m = Ret tt w' /\
    (exists evs, trace w' = trace m ++ evs /\ stores_nonnull (heap m) evs) /\
    forall l,
      match mask_of l (heap m) with
      | None => mask_of l (heap w') = None
      | Some v0 =>
        (exists i j,
           0 <= i < 8 /\ 0 <= j < modmap.keycodes_per_modifier r /\
           cell_selects keysyms (heap m) r l i j /\
           (forall i' j',
              0 <= i' < 8 -> 0 <= j' < modmap.keycodes_per_modifier r ->
              i * modmap.keycodes_per_modifier r + j
                < i' * modmap.keycodes_per_modifier r + j' ->
              ~ cell_selects keysyms (heap m) r l i' j') /\
           mask_of l (heap w') = Some (shl1 i)) \/
        ((forall i j,
            0 <= i < 8 -> 0 <= j < modmap.keycodes_per_modifier r ->
            ~ cell_selects keysyms (heap m) r l i j) /\
         mask_of l (heap w') = Some v0)
      end.
Proof.
  intros Hr HK Hlen.
  destruct (getlockmask_scan X keysyms m r Hr HK Hlen) as (w' & Hrun & Hs & Htr).
  exists w'. split; [exact Hrun|]. split; [exact Htr|].
  intros l. specialize (Hs l). unfold cell_selects.
  set (K := modmap.keycodes_per_modifier r) in *.
  destruct (mask_of l (heap m)) as [v0|]; [|exact Hs].
  destruct Hs as [(k & Hk & Hhit & Hlast & Hm)|(Hnone & Hm)].
  - left. assert (0 < K) as HK0 by lia.
    exists (k / K), (k mod K).
    pose proof (Z.mod_pos_bound k K HK0) as Hmod.
    pose proof (Z.div_mod k K ltac:(lia)) as Hdm.
    assert (0 <= k / K < 8) as Hdiv.
    { split; [apply Z.div_pos; lia | apply Z.div_lt_upper_bound; lia]. }
    split_and!; try lia.
    + by replace (k / K * K + k mod K) with k by lia.
    + intros i' j' Hi' Hj' Hlt. apply Hlast. nia.
    + exact Hm.
  - right. split; [|exact Hm]. intros i j Hi Hj. apply Hnone. nia.
Qed.

(** The theorem on a table of two keycodes per modifier, with Num Lock
    on keycode 77 (row 4), Caps Lock on keycode 66 (rows 1 and 7) and a
    null shift pointer. *)
Lemma getlockmask_last_selected_witness :
  exists w',
    xutil_getlockmask (server_modmap modmap_two) (keysyms_of 77 0 66)
      (World (LockMasks (Some 0) None (Some 0)) []) = Ret tt w' /\
    shiftlockmask (heap w') = None /\
    numlockmask (heap w') = Some 16 /\
    exists i, 0 <= i < 8 /\ capslockmask (heap w') = Some (shl1 i).
Proof.
  destruct (getlockmask_last_selected (server_modmap modmap_two)
              (keysyms_of 77 0 66) (World (LockMasks (Some 0) None (Some 0)) [])
              modmap_two eq_refl ltac:(simpl; lia) eq_refl)
    as (w' & Hrun & _ & Hmasks).
  exists w'. split; [exact Hrun|].
  split; [exact (Hmasks ShiftLock)|]. split.
  - destruct (Hmasks NumLock)
      as [(i & j & Hi & Hj & (kc & Hkc & Hsel) & _ & Hm)|[Hnone _]];
      [|exfalso; apply (Hnone 4 0 ltac:(lia) ltac:(simpl; lia));
        exists 77; split; reflexivity].
    simpl in Hm. rewrite Hm. f_equal.
    assert (i = 4) as ->; [|reflexivity].
    simpl in Hj, Hkc.
    assert (i = 0 \/ i = 1 \/ i = 2 \/ i = 3 \/ i = 4 \/ i = 5 \/ i = 6 \/ i = 7)
      as Hi8 by lia.
    assert (j = 0 \/ j = 1) as Hj2 by lia.
    destruct Hi8 as [->|[->|[->|[->|[->|[->|[->| ->]]]]]]], Hj2 as [->| ->];
      simpl in Hkc; injection Hkc as <-; (reflexivity || discriminate).
  - destruct (Hmasks CapsLock) as [(i & j & Hi & _ & _ & _ & Hm)|[Hnone _]].
    + exists i. split; [exact Hi | exact Hm].
    + exfalso. apply (Hnone 1 0 ltac:(lia) ltac:(simpl; lia)).
      exists 66. split; reflexivity.
Defined.

(** ** Replies are released on every path that returns *)

Lemma held_app tr1 tr2 : held (tr1 ++ tr2) = held tr1 + held tr2.
Proof.
  induction tr1 as [|e tr1 IH]; simpl; [lia|].
  destruct e as [| [|] | | |]; lia.
Qed.

Lemma held_intern_trace X name : held (intern_trace X name) = 0.
Proof. unfold intern_trace. destruct (intern_reply X name); reflexivity. Qed.

Lemma held_type_trace X r : held (type_trace X r) = 0.
Proof.
  unfold type_trace. destruct (prop.type r =? STRING); [reflexivity|].
  apply held_intern_trace.
Qed.

(** [xutil_intern_atom] always returns, with its reply released. *)
Lemma intern_atom_releases {H} X name (w : world H) :
  exists a w', xutil_intern_atom X name w = Ret a w' /\
               held (trace w') = held (trace w).
Proof.
  eexists _, _. split; [apply xutil_intern_atom_run|]. simpl.
  rewrite held_app, held_intern_trace. lia.
Qed.

(** Whenever [xutil_gettextprop] returns, on any of its exit paths, the
    replies it collected have been released. *)
Lemma gettextprop_releases X w atom text textlen m b w' :
  xutil_gettextprop X w atom text textlen m = Ret b w' ->
  held (trace w') = held (trace m).
Proof.
  intros Hrun.
  destruct text as [a|];
    [|rewrite gettextprop_no_buffer in Hrun by auto; injection Hrun as _ <-;
      simpl; rewrite held_app; simpl; lia].
  destruct (Z.eq_dec textlen 0) as [->|Hl];
    [rewrite gettextprop_no_buffer in Hrun by auto; injection Hrun as _ <-;
     simpl; rewrite held_app; simpl; lia|].
  destruct (property_reply X w atom) as [r|] eqn:Hr;
    [|rewrite gettextprop_no_reply in Hrun by done; injection Hrun as _ <-;
      simpl; rewrite held_app; simpl; lia].
  destruct (Z.eq_dec (prop.value_len r) 0) as [Hv|Hv];
    [rewrite (gettextprop_unusable _ _ _ _ _ _ r) in Hrun by auto;
     injection Hrun as _ <-; simpl; rewrite held_app; simpl; lia|].
  destruct (Z.eq_dec (prop.format r) 8) as [Hf|Hf];
    [|rewrite (gettextprop_unusable _ _ _ _ _ _ r) in Hrun by auto;
      injection Hrun as _ <-; simpl; rewrite held_app; simpl; lia].
  rewrite (gettextprop_usable _ _ _ _ _ _ r) in Hrun by done.
  simpl in Hrun.
  pose proof (held_type_trace X r) as Hheld.
  destruct (is_text_type X r).
  - destruct (text_copy a textlen r _) as [u w1|e] eqn:Hc; [|discriminate].
    injection Hrun as _ <-. simpl.
    apply text_copy_trace in Hc as (p & n & q & ->). simpl.
    rewrite !held_app. unfold text_request. simpl. lia.
  - injection Hrun as _ <-. simpl.
    rewrite !held_app. unfold text_request. simpl. lia.
Qed.

(** [xutil_get_transient_for_hint] releases its reply on both paths. *)
Lemma get_transient_for_hint_releases X win m b w' :
  xutil_get_transient_for_hint X win m = Ret b w' ->
  held (trace w') = held (trace m).
Proof.
  unfold xutil_get_transient_for_hint. xrun.
  destruct (property_reply X win WM_TRANSIENT_FOR) as [r|]; simpl.
  - destruct (negb (prop.type r =? WINDOW) || negb (prop.format r =? 32)
              || (prop.length r =? 0)); simpl.
    + intros [= _ <-]. simpl. rewrite !held_app. simpl. lia.
    + unfold load32.
      destruct (prop.value r) as [|b0 [|b1 [|b2 [|b3 rest]]]]; simpl;
        try discriminate.
      intros [= _ <-]. simpl. rewrite !held_app. simpl. lia.
  - intros [= _ <-]. simpl. rewrite !held_app. simpl. lia.
Qed.

(** Whenever [xutil_get_class_hint] returns, its reply has been
    released. *)
Lemma get_class_hint_releases X win m h w' :
  xutil_get_class_hint X win m = Ret h w' ->
  held (trace w') = held (trace m).
Proof.
  unfold xutil_get_class_hint.
  rewrite bind_run, emit_run. unfold wait_reply.
  rewrite !bind_run, emit_run. simpl.
  destruct (property_reply X win WM_CLASS) as [r|]; simpl.
  - destruct (negb (prop.type r =? STRING) || negb (prop.format r =? 8)); simpl.
    + xrun. intros [= _ <-]. simpl. rewrite !held_app. simpl. lia.
    + intros Hrun.
      apply bind_ret_inv in Hrun as (n1 & w1 & H1 & Hrun).
      apply a_strlen_inv in H1 as ->.
      apply bind_ret_inv in Hrun as (n2 & w2 & H2 & Hrun).
      apply a_strlen_inv in H2 as ->.
      apply bind_ret_inv in Hrun as (s1 & w3 & H3 & Hrun).
      apply strndup_inv in H3 as ->.
      apply bind_ret_inv in Hrun as (s2 & w4 & H4 & Hrun).
      apply strndup_inv in H4 as ->.
      revert Hrun. xrun. intros [= _ <-]. simpl. rewrite !held_app. simpl. lia.
  - xrun. intros [= _ <-]. simpl. rewrite !held_app. simpl. lia.
Qed.

(** * Further properties of the code *)

(** ** xutil_set_error_handler_catch_all *)

Lemma insert_replicate_drop {A} (x : A) (l : list A) (n : nat) :
  (n < length l)%nat ->
  <[n := x]> (replicate n x ++ drop n l) = replicate (S n) x ++ drop (S n) l.
Proof.
  revert l. induction n as [|n IH]; intros [|y l] Hn; simpl in *; try lia.
  - reflexivity.
  - f_equal. apply IH. lia.
Qed.

Lemma xcb_set_error_handler_run errornum handler data (w : world error_handlers) :
  0 <= errornum < Z.of_nat (length (heap w)) ->
  xcb_set_error_handler errornum handler data w
  = Ret tt (World (<[Z.to_nat errornum := (handler, data)]> (heap w)) (trace w)).
Proof.
  intros Hn. unfold xcb_set_error_handler.
  destruct (Z.leb_spec 0 errornum); [|lia].
  destruct (Z.ltb_spec errornum (Z.of_nat (length (heap w)))); [|lia].
  reflexivity.
Qed.

(** X1.  On a table of 256 error slots the call returns with every slot
    holding the handler and the data passed in, whatever the slots held
    before, and with 256 slots still: installing a second pair replaces
    the first in every slot, and installing the same pair twice is the
    same as once. *)
Theorem set_error_handler_catch_all_fills handler data (w : world error_handlers) :
  length (heap w) = 256%nat ->
  xutil_set_error_handler_catch_all handler data w
  = Ret tt (World (replicate 256 (handler, data)) (trace w)).
Proof.
  intros Hlen. unfold xutil_set_error_handler_catch_all.
  pose proof xcb_set_error_handler_run as Hset.
  unfold error_handlers in *.
  destruct (@for_loop_inv (list (Z * Z))
              (fun i w' => trace w' = trace w /\
                 heap w' = replicate (Z.to_nat i) (handler, data)
                             ++ drop (Z.to_nat i) (heap w))
              (Z.to_nat ERRORS_NBR) 0
              (fun err_num => xcb_set_error_handler err_num handler data) w)
    as (w' & Hrun & Htr & Hheap).
  - split; reflexivity.
  - intros i wi Hi [Htr Hheap].
    assert (length (heap wi) = 256%nat) as Hlen'.
    { rewrite Hheap, length_app, length_replicate, length_drop.
      unfold ERRORS_NBR in Hi. lia. }
    unfold ERRORS_NBR in Hi.
    eexists. split; [apply Hset; lia|].
    simpl. split; [exact Htr|].
    rewrite Hheap.
    replace (Z.to_nat (i + 1)) with (S (Z.to_nat i)) by lia.
    apply insert_replicate_drop. lia.
  - rewrite Hrun. destruct w' as [h' tr']. cbn [heap trace] in Htr, Hheap.
    subst tr'. rewrite Hheap.
    replace (Z.to_nat (0 + Z.of_nat (Z.to_nat ERRORS_NBR))) with 256%nat
      by reflexivity.
    rewrite drop_ge by lia. rewrite app_nil_r. reflexivity.
Qed.

(** The call on a table that holds the pair (1, 2) in every slot. *)
Lemma set_error_handler_catch_all_fills_witness :
  xutil_set_error_handler_catch_all 7 9 (World handlers_old [])
  = Ret tt (World (replicate 256 (7, 9)) []).
Proof.
  apply (set_error_handler_catch_all_fills 7 9 (World handlers_old [])).
  reflexivity.
Defined.

(** ** xutil_gettextprop *)

(** X2.  When the buffer, if there is one of non-zero length, has at
    least two bytes inside the caller's memory and the value of a reply
    holds [value_len] bytes, the call returns; it returns true exactly
    when the buffer is non-null, its length is not zero, and the reply
    is present, not empty and of format 8; when it returns false, and
    when it returns true on a value whose type is neither [STRING] nor
    the atom of [UTF8_STRING], the caller's memory is as it was. *)
Theorem gettextprop_return_value X w atom text textlen m :
  (forall a, text = Some a -> textlen = 0 \/
     (2 <= textlen <= SSIZE_MAX /\ 0 <= a /\
      a + textlen <= Z.of_nat (length (heap m)))) ->
  (forall r, property_reply X w atom = Some r ->
     Z.of_nat (length (prop.value r)) = prop.value_len r) ->
  exists b w',
    xutil_gettextprop X w atom text textlen m = Ret b w' /\
    (b = true <->
       exists a r, text = Some a /\ textlen <> 0 /\
         property_reply X w atom = Some r /\ usable r) /\
    (b = false -> heap w' = heap m) /\
    (forall r, property_reply X w atom = Some r ->
       is_text_type X r = false -> heap w' = heap m).
Proof.
  intros Hbuf Hwf.
  assert (forall w' : world (list byte), heap w' = heap m ->
            ~ (exists a r, text = Some a /\ textlen <> 0 /\
                 property_reply X w atom = Some r /\ usable r) ->
            (false = true <->
               exists a r, text = Some a /\ textlen <> 0 /\
                 property_reply X w atom = Some r /\ usable r) /\
            (false = false -> heap w' = heap m) /\
            (forall r, property_reply X w atom = Some r ->
               is_text_type X r = false -> heap w' = heap m)) as Hfalse.
  { intros w' Hh Hno. split_and!; [split; [done|intros H; by destruct Hno] | done | done]. }
  destruct text as [a|].
  2:{ eexists _, _. split; [by apply gettextprop_no_buffer; auto|].
      apply Hfalse; [done|]. intros (? & ? & ? & _); done. }
  destruct (Z.eq_dec textlen 0) as [->|Hl0].
  { eexists _, _. split; [by apply gettextprop_no_buffer; auto|].
    apply Hfalse; [done|]. intros (? & ? & _ & ? & _); done. }
  destruct (Hbuf a eq_refl) as [?|(Hl & Ha & Hdst)]; [done|].
  destruct (property_reply X w atom) as [r|] eqn:Hr.
  2:{ eexists _, _. split; [by apply gettextprop_no_reply|].
      apply Hfalse; [done|]. intros (? & ? & _ & _ & ? & _); done. }
  specialize (Hwf r eq_refl).
  destruct (Z.eq_dec (prop.value_len r) 0) as [Hv|Hv].
  { eexists _, _. split; [by apply (gettextprop_unusable _ _ _ _ _ _ r); auto|].
    apply Hfalse; [done|]. intros (? & ? & _ & _ & [= <-] & [? _]); done. }
  destruct (Z.eq_dec (prop.format r) 8) as [Hf|Hf].
  2:{ eexists _, _. split; [by apply (gettextprop_unusable _ _ _ _ _ _ r); auto|].
      apply Hfalse; [done|]. intros (? & ? & _ & _ & [= <-] & [_ ?]); done. }
  assert (usable r) as Hu by done.
  destruct (is_text_type X r) eqn:Ht.
  - destruct (gettextprop_copy_rule X w atom a textlen m r)
      as (w' & Hrun & _); try done.
    exists true, w'. split; [exact Hrun|].
    split_and!; [split; [eauto 10|done] | done |].
    intros r' [= <-] Ht'. congruence.
  - eexists true, _.
    split; [by apply (gettextprop_other_type _ _ _ _ _ _ r)|].
    split_and!; [split; [eauto 10|done] | done | done].
Qed.

Lemma gettextprop_return_value_witness :
  exists w',
    xutil_gettextprop (server_with (Some reply_compound)) 1 2 (Some 0) 4 (fresh 4)
      = Ret true w' /\
    heap w' = heap (fresh 4).
Proof.
  destruct (gettextprop_return_value (server_with (Some reply_compound)) 1 2
              (Some 0) 4 (fresh 4)
              ltac:(intros a [= <-]; right; vm_compute; repeat split; discriminate)
              ltac:(intros r [= <-]; reflexivity))
    as (b & w' & Hrun & Hb & _ & Hother).
  exists w'. split.
  - destruct b; [exact Hrun|].
    exfalso. destruct Hb as [_ Hb].
    discriminate Hb. exists 0, reply_compound.
    repeat split; (reflexivity || discriminate).
  - apply (Hother reply_compound); reflexivity.
Defined.

Lemma strlen_lookup_nul (s : list byte) (n : nat) :
  s !! n = Some NUL -> exists k, strlen s = Some k /\ 0 <= k <= Z.of_nat n.
Proof.
  revert n. induction s as [|b s IH]; intros n Hn; [done|].
  simpl. destruct (is_nul b) eqn:Hb; [exists 0; split; [done|lia]|].
  destruct n as [|n]; [simpl in Hn; injection Hn as ->; discriminate|].
  destruct (IH n Hn) as (k & -> & Hk). exists (Z.succ k). split; [done|lia].
Qed.

Lemma strlen_first_nul (s : list byte) (n : nat) :
  s !! n = Some NUL -> nul_free (take n s) -> strlen s = Some (Z.of_nat n).
Proof.
  revert n. induction s as [|b s IH]; intros n Hn Hfree; [done|].
  destruct n as [|n]; simpl in *.
  - injection Hn as ->. reflexivity.
  - apply Forall_cons in Hfree as [Hb Hfree]. rewrite Hb, (IH n) by done.
    simpl. f_equal. lia.
Qed.

(** X3.  On an accepted reply and a buffer of at least two bytes the
    call leaves a C string in the buffer: a scan from [text] meets a
    null byte at an index [k <= textlen - 1], so inside the buffer, and
    [k] is at most the length of the value.  When the value is shorter
    than [textlen - 1] and holds no null byte, the string is the value:
    [k = value_len] and the [k] bytes before the terminator are the
    payload. *)
Theorem gettextprop_c_string X w atom a textlen m r :
  property_reply X w atom = Some r -> usable r -> is_text_type X r = true ->
  2 <= textlen <= SSIZE_MAX ->
  Z.of_nat (length (prop.value r)) = prop.value_len r ->
  0 <= a -> a + textlen <= Z.of_nat (length (heap m)) ->
  exists w' k,
    xutil_gettextprop X w atom (Some a) textlen m = Ret true w' /\
    strlen (drop (Z.to_nat a) (heap w')) = Some k /\
    0 <= k <= textlen - 1 /\ k <= prop.value_len r /\
    (prop.value_len r < textlen - 1 -> nul_free (prop.value r) ->
       k = prop.value_len r /\
       take (Z.to_nat k) (drop (Z.to_nat a) (heap w')) = prop.value r).
Proof.
  intros Hr Hu Ht Hl Hwf Ha Hdst.
  destruct (gettextprop_copy_rule X w atom a textlen m r)
    as (w' & Hrun & _ & Hbytes & Hterm); try done.
  exists w'.
  destruct (Z.ltb_spec (prop.value_len r) (textlen - 1)) as [Hv|Hv].
  - assert (drop (Z.to_nat a) (heap w') !! Z.to_nat (prop.value_len r) = Some NUL)
      as Hnul.
    { rewrite lookup_drop, <- Hterm. f_equal. lia. }
    destruct (strlen_lookup_nul _ _ Hnul) as (k & Hk & Hkr).
    exists k. split_and!; try done; try lia.
    intros _ Hfree.
    assert (take (Z.to_nat (prop.value_len r)) (drop (Z.to_nat a) (heap w'))
            = prop.value r) as Htake.
    { apply list_eq. intros i.
      destruct (decide (i < Z.to_nat (prop.value_len r))%nat) as [Hi|Hi].
      - rewrite lookup_take_lt, lookup_drop by done.
        replace (Z.to_nat a + i)%nat with (Z.to_nat (a + Z.of_nat i)) by lia.
        rewrite Hbytes by lia. f_equal. lia.
      - rewrite lookup_take_ge by lia. symmetry. apply lookup_ge_None. lia. }
    assert (k = prop.value_len r) as ->.
    { rewrite (strlen_first_nul _ _ Hnul) in Hk by (by rewrite Htake).
      injection Hk as <-. lia. }
    done.
  - assert (drop (Z.to_nat a) (heap w') !! Z.to_nat (textlen - 1) = Some NUL)
      as Hnul.
    { rewrite lookup_drop, <- Hterm. f_equal. lia. }
    destruct (strlen_lookup_nul _ _ Hnul) as (k & Hk & Hkr).
    exists k. split_and!; try done; try lia.
Qed.

(** Five bytes into a buffer of sixteen: the buffer reads ["hello"]. *)
Lemma gettextprop_c_string_witness :
  exists w',
    xutil_gettextprop (server_with (Some reply_hello)) 1 2 (Some 0) 16 (fresh 16)
      = Ret true w' /\
    strlen (heap w') = Some 5 /\ take 5 (heap w') = bytes_of "hello".
Proof.
  destruct (gettextprop_c_string (server_with (Some reply_hello)) 1 2 0 16
              (fresh 16) reply_hello eq_refl
              ltac:(split; [discriminate | reflexivity]) eq_refl
              ltac:(vm_compute; split; discriminate) eq_refl
              ltac:(lia) ltac:(simpl; lia))
    as (w' & k & Hrun & Hk & _ & _ & Hexact).
  destruct (Hexact ltac:(simpl; lia) ltac:(repeat constructor)) as [-> Htake].
  exists w'. split; [exact Hrun|]. split; [exact Hk | exact Htake].
Defined.

Lemma requests_of_app tr1 tr2 :
  requests_of (tr1 ++ tr2) = requests_of tr1 ++ requests_of tr2.
Proof. apply omap_app. Qed.

Lemma requests_of_type_trace X r :
  requests_of (type_trace X r)
  = if prop.type r =? STRING then [] else [InternAtom false "UTF8_STRING"].
Proof.
  unfold type_trace, intern_trace.
  destruct (prop.type r =? STRING); [reflexivity|].
  destruct (intern_reply X "UTF8_STRING"); reflexivity.
Qed.

(** X4.  Whenever the call returns it has sent the property request
    first, for the window and the atom given, of any type, from offset 0
    and for up to 1000000 units; it then sends one more request, the
    interning of [UTF8_STRING], exactly when the buffer is non-null and
    of non-zero length and the reply is present, not empty, of format 8
    and of a type other than [STRING]; it sends nothing else. *)
Theorem gettextprop_requests X w atom text textlen m b w' :
  xutil_gettextprop X w atom text textlen m = Ret b w' ->
  requests_of (trace w')
  = requests_of (trace m)
    ++ GetProperty false false w atom XCB_GET_PROPERTY_TYPE_ANY 0 1000000
       :: (if asks_utf8 X w atom text textlen
           then [InternAtom false "UTF8_STRING"] else []).
Proof.
  intros Hrun. unfold asks_utf8.
  destruct text as [a|];
    [|rewrite gettextprop_no_buffer in Hrun by auto; injection Hrun as _ <-;
      simpl; by rewrite requests_of_app].
  destruct (Z.eqb_spec textlen 0) as [->|Hl];
    [rewrite gettextprop_no_buffer in Hrun by auto; injection Hrun as _ <-;
     simpl; destruct (property_reply X w atom); by rewrite requests_of_app|].
  destruct (property_reply X w atom) as [r|] eqn:Hr;
    [|rewrite gettextprop_no_reply in Hrun by done; injection Hrun as _ <-;
      simpl; by rewrite requests_of_app].
  destruct (Z.eqb_spec (prop.value_len r) 0) as [Hv|Hv];
    [rewrite (gettextprop_unusable _ _ _ _ _ _ r) in Hrun by auto;
     injection Hrun as _ <-; simpl; by rewrite requests_of_app|].
  destruct (Z.eqb_spec (prop.format r) 8) as [Hf|Hf];
    [|rewrite (gettextprop_unusable _ _ _ _ _ _ r) in Hrun by auto;
      injection Hrun as _ <-; simpl; by rewrite requests_of_app].
  rewrite (gettextprop_usable _ _ _ _ _ _ r) in Hrun by done.
  simpl in Hrun. pose proof (requests_of_type_trace X r) as Hreq.
  assert (forall tl, requests_of tl = [] ->
            requests_of ((trace m ++ text_request w atom :: Reply true
                            :: type_trace X r) ++ tl)
            = requests_of (trace m)
              ++ GetProperty false false w atom XCB_GET_PROPERTY_TYPE_ANY 0 1000000
                 :: (if negb (prop.type r =? STRING)
                     then [InternAtom false "UTF8_STRING"] else [])) as Hall.
  { intros tl Htl. rewrite !requests_of_app, Htl, app_nil_r.
    change (requests_of (text_request w atom :: Reply true :: type_trace X r))
      with (GetProperty false false w atom XCB_GET_PROPERTY_TYPE_ANY 0 1000000
              :: requests_of (type_trace X r)).
    rewrite Hreq. by destruct (prop.type r =? STRING). }
  simpl. destruct (is_text_type X r).
  - destruct (text_copy a textlen r _) as [u w1|e] eqn:Hc; [|discriminate].
    injection Hrun as _ <-. simpl.
    apply text_copy_trace in Hc as (p & n & q & ->). simpl.
    rewrite <- app_assoc. by apply Hall.
  - injection Hrun as _ <-. simpl. by apply Hall.
Qed.

(** A value of another type in a valid buffer: two requests. *)
Lemma gettextprop_requests_witness :
  exists w',
    xutil_gettextprop (server_with (Some reply_utf8)) 1 2 (Some 0) 16 (fresh 16)
      = Ret true w' /\
    requests_of (trace w')
    = [GetProperty false false 1 2 XCB_GET_PROPERTY_TYPE_ANY 0 1000000;
       InternAtom false "UTF8_STRING"].
Proof.
  eexists. split; [vm_compute; reflexivity|].
  apply (gettextprop_requests (server_with (Some reply_utf8)) 1 2 (Some 0) 16
           (fresh 16) true).
  vm_compute. reflexivity.
Defined.

(** X15.  On an accepted reply and a buffer of at least two bytes the
    buffer begins with the payload: its first [min value_len (textlen - 2)]
    bytes are the first bytes of the value, copied as they are, null
    bytes included; the caller's memory keeps its size, and the bytes
    before the buffer and after it keep their values. *)
Theorem gettextprop_prefix X w atom a textlen m r :
  property_reply X w atom = Some r -> usable r -> is_text_type X r = true ->
  2 <= textlen <= SSIZE_MAX ->
  Z.of_nat (length (prop.value r)) = prop.value_len r ->
  0 <= a -> a + textlen <= Z.of_nat (length (heap m)) ->
  exists w',
    xutil_gettextprop X w atom (Some a) textlen m = Ret true w' /\
    let n := Z.to_nat (Z.min (prop.value_len r) (textlen - 2)) in
    take n (drop (Z.to_nat a) (heap w')) = take n (prop.value r) /\
    length (heap w') = length (heap m) /\
    take (Z.to_nat a) (heap w') = take (Z.to_nat a) (heap m) /\
    drop (Z.to_nat (a + textlen)) (heap w') = drop (Z.to_nat (a + textlen)) (heap m).
Proof.
  intros Hr Hu Ht Hl Hwf Ha Hdst.
  assert (forall bytes t,
            a + Z.of_nat (length bytes) <= t < a + textlen ->
            xutil_gettextprop X w atom (Some a) textlen m
            = Ret true (World (written_text a bytes t (heap m))
                          (trace m ++ [text_request w atom; Reply true]
                             ++ type_trace X r
                             ++ [Store a (Z.of_nat (length bytes)); Store t 1;
                                 Release])) ->
            forall n, (n <= length bytes)%nat -> take n bytes = take n (prop.value r) ->
            exists w',
              xutil_gettextprop X w atom (Some a) textlen m = Ret true w' /\
              take n (drop (Z.to_nat a) (heap w')) = take n (prop.value r) /\
              length (heap w') = length (heap m) /\
              take (Z.to_nat a) (heap w') = take (Z.to_nat a) (heap m) /\
              drop (Z.to_nat (a + textlen)) (heap w')
              = drop (Z.to_nat (a + textlen)) (heap m)) as Hgen.
  { intros bytes t Ht' Hrun n Hn Hbytes. eexists. split; [exact Hrun|]. simpl.
    split_and!.
    - rewrite <- Hbytes. apply list_eq. intros i.
      destruct (decide (i < n)%nat) as [Hi|Hi].
      + rewrite !lookup_take_lt, lookup_drop by done.
        apply written_text_bytes; lia.
      + by rewrite !lookup_take_ge by lia.
    - apply written_text_length.
    - apply list_eq. intros i.
      destruct (decide (i < Z.to_nat a)%nat) as [Hi|Hi].
      + rewrite !lookup_take_lt by done. apply written_text_frame; lia.
      + by rewrite !lookup_take_ge by lia.
    - apply list_eq. intros i. rewrite !lookup_drop.
      apply written_text_frame; lia. }
  simpl.
  destruct (Z.ltb_spec (prop.value_len r) (textlen - 1)) as [Hv|Hv].
  - destruct Hu as [Hv0 Hf].
    assert (length (take (Z.to_nat (prop.value_len r)) (prop.value r))
            = Z.to_nat (prop.value_len r)) as Hlen by (apply length_take_le; lia).
    apply (Hgen (take (Z.to_nat (prop.value_len r)) (prop.value r))
             (a + prop.value_len r)).
    + rewrite Hlen. lia.
    + rewrite Hlen, Z2Nat.id by lia.
      apply gettextprop_short; (done || lia).
    + rewrite Hlen. lia.
    + rewrite take_take. f_equal. lia.
  - assert (length (take (Z.to_nat (textlen - 2)) (prop.value r))
            = Z.to_nat (textlen - 2)) as Hlen by (apply length_take_le; lia).
    apply (Hgen (take (Z.to_nat (textlen - 2)) (prop.value r))
             (a + (textlen - 1))).
    + rewrite Hlen. lia.
    + rewrite Hlen, Z2Nat.id by lia.
      apply gettextprop_trunc; (done || lia).
    + rewrite Hlen. lia.
    + rewrite take_take. f_equal. lia.
Qed.

(** Twenty bytes into a buffer of eight inside an object of ten: six
    bytes of the payload, and the two bytes after the buffer kept. *)
Lemma gettextprop_prefix_witness :
  exists w',
    xutil_gettextprop (server_with (Some reply_20A)) 1 2 (Some 0) 8 (fresh 10)
      = Ret true w' /\
    take 6 (heap w') = bytes_of "AAAAAA" /\
    drop 8 (heap w') = bytes_of "xx".
Proof.
  destruct (gettextprop_prefix (server_with (Some reply_20A)) 1 2 0 8 (fresh 10)
              reply_20A eq_refl
              ltac:(split; [discriminate | reflexivity]) eq_refl
              ltac:(vm_compute; split; discriminate) eq_refl
              ltac:(lia) ltac:(simpl; lia))
    as (w' & Hrun & Hpre & _ & _ & Hpost).
  exists w'. split; [exact Hrun|]. split; [exact Hpre | exact Hpost].
Defined.

(** ** Replies *)

(** X5.  Whenever [xutil_gettextprop], [xutil_get_transient_for_hint] or
    [xutil_get_class_hint] returns, on whichever of its paths, every
    reply it collected has been released: the number of replies held is
    what it was before the call.  [xutil_intern_atom] always returns,
    and releases its reply too. *)
Theorem replies_released :
  (forall X w atom text textlen m b w',
     xutil_gettextprop X w atom text textlen m = Ret b w' ->
     held (trace w') = held (trace m)) /\
  (forall X win m b w',
     xutil_get_transient_for_hint X win m = Ret b w' ->
     held (trace w') = held (trace m)) /\
  (forall X win m h w',
     xutil_get_class_hint X win m = Ret h w' ->
     held (trace w') = held (trace m)) /\
  (forall X name (m : world unit),
     exists a w', xutil_intern_atom X name m = Ret a w' /\
                  held (trace w') = held (trace m)).
Proof.
  split_and!.
  - apply gettextprop_releases.
  - apply get_transient_for_hint_releases.
  - apply get_class_hint_releases.
  - intros X name m. apply intern_atom_releases.
Qed.

(** The three property operations on replies they accept. *)
Lemma replies_released_witness :
  (exists b w',
     xutil_gettextprop (server_with (Some reply_utf8)) 1 2 (Some 0) 16 (fresh 16)
       = Ret b w' /\ held (trace w') = 0) /\
  (exists b w',
     xutil_get_transient_for_hint (server_with (Some reply_window)) 9 (World 77 [])
       = Ret b w' /\ held (trace w') = 0) /\
  (exists h w',
     xutil_get_class_hint (server_with (Some reply_compound)) 9 (World tt [])
       = Ret h w' /\ held (trace w') = 0).
Proof.
  destruct replies_released as (Htext & Hwin & Hclass & _).
  split_and!; eexists _, _; (split; [vm_compute; reflexivity|]).
  - apply (Htext (server_with (Some reply_utf8)) 1 2 (Some 0) 16 (fresh 16) true).
    vm_compute. reflexivity.
  - apply (Hwin (server_with (Some reply_window)) 9 (World 77 []) true).
    vm_compute. reflexivity.
  - apply (Hclass (server_with (Some reply_compound)) 9 (World tt []) None).
    vm_compute. reflexivity.
Defined.

(** ** xutil_getlockmask *)

(** X6.  With a modifier-mapping reply of 8 rows the call makes one
    round trip: it sends the one request, collects the reply, stores
    through mask pointers only, at most once for each cell of the table,
    and releases the reply last. *)
Theorem getlockmask_one_round_trip X keysyms m r :
  modmap_reply X = Some r ->
  0 <= modmap.keycodes_per_modifier r ->
  Z.of_nat (length (modmap.keycodes r)) = 8 * modmap.keycodes_per_modifier r ->
  exists w' ls,
    xutil_getlockmask X keysyms m = Ret tt w' /\
    trace w' = trace m ++ [Send GetModifierMapping; Reply true]
                 ++ (StoreMask <$> ls) ++ [Release] /\
    Z.of_nat (length ls) <= 8 * modmap.keycodes_per_modifier r.
Proof.
  intros Hr HK Hlen. set (K := modmap.keycodes_per_modifier r) in *.
  set (Inv := fun (n : Z) (w : world lockmasks) =>
    exists ls, trace w = trace m ++ [Send GetModifierMapping; Reply true]
                           ++ (StoreMask <$> ls) /\
               Z.of_nat (length ls) <= n).
  unfold xutil_getlockmask.
  rewrite bind_run, emit_run. unfold wait_reply.
  rewrite !bind_run, emit_run, Hr. simpl. rewrite bind_run.
  match goal with
  | |- context [for_loop 8 0 ?body ?w0] =>
      destruct (for_loop_inv (fun i w => Inv (i * K) w) 8 0 body w0)
        as (w1 & Hrun & ls & Htr & Hls)
  end.
  - exists []. simpl. split; [by rewrite <- app_assoc | lia].
  - intros i w Hi HI. rewrite bind_run. simpl. fold K.
    match goal with
    | |- context [for_loop (Z.to_nat K) 0 ?body w] =>
        destruct (for_loop_inv (fun j w => Inv (i * K + j) w) (Z.to_nat K) 0
                    body w) as (w2 & Hrun2 & HI2)
    end.
    + by replace (i * K + 0) with (i * K) by lia.
    + intros j wj Hj (ls & Htr & Hls).
      rewrite bind_run. simpl. rewrite bind_run.
      destruct (Z.ltb_spec (i * K + j) 0); [nia|].
      destruct (lookup_lt_is_Some_2 (modmap.keycodes r) (Z.to_nat (i * K + j)))
        as [kc Hkc]; [nia|].
      rewrite Hkc. simpl. rewrite lockmask_cell_run.
      destruct (selects keysyms (heap wj) kc) as [l|].
      * eexists. split; [reflexivity|]. exists (ls ++ [l]). simpl.
        rewrite Htr, fmap_app, length_app. simpl.
        split; [by rewrite <- !app_assoc | lia].
      * eexists. split; [reflexivity|]. exists ls. split; [done | lia].
    + exists w2. split; [exact Hrun2|].
      replace ((i + 1) * K) with (i * K + (0 + Z.of_nat (Z.to_nat K))) by lia.
      exact HI2.
  - rewrite Hrun. xrun. eexists _, ls. split; [reflexivity|]. simpl.
    rewrite Htr. split; [by rewrite <- !app_assoc | lia].
Qed.

(** The round trip on a table of two keycodes per modifier. *)
Lemma getlockmask_one_round_trip_witness :
  exists w' ls,
    xutil_getlockmask (server_modmap modmap_two) (keysyms_of 77 0 66)
      (World (LockMasks (Some 0) None (Some 0)) []) = Ret tt w' /\
    trace w' = [Send GetModifierMapping; Reply true] ++ (StoreMask <$> ls)
                 ++ [Release] /\
    Z.of_nat (length ls) <= 16.
Proof.
  apply (getlockmask_one_round_trip (server_modmap modmap_two)
           (keysyms_of 77 0 66) (World (LockMasks (Some 0) None (Some 0)) [])
           modmap_two eq_refl ltac:(simpl; lia) eq_refl).
Defined.

(** With distinct keycodes behind the non-null pointers, a keycode
    selects a lock exactly when it is the keycode of that lock. *)
Lemma selects_distinct keysyms h kc l :
  (forall l1 l2, l1 <> l2 -> is_Some (mask_of l1 h) -> is_Some (mask_of l2 h) ->
     keysyms (keysym_of l1) <> keysyms (keysym_of l2)) ->
  selects keysyms h kc = Some l <->
  is_Some (mask_of l h) /\ kc = keysyms (keysym_of l).
Proof.
  intros Hd. unfold selects.
  pose proof (Hd NumLock ShiftLock ltac:(done)) as Hns.
  pose proof (Hd NumLock CapsLock ltac:(done)) as Hnc.
  pose proof (Hd ShiftLock CapsLock ltac:(done)) as Hsc.
  simpl in Hns, Hnc, Hsc.
  destruct (bool_decide_reflect (is_Some (numlockmask h))) as [Hn|Hn],
    (bool_decide_reflect (is_Some (shiftlockmask h))) as [Hs|Hs],
    (bool_decide_reflect (is_Some (capslockmask h))) as [Hc|Hc]; simpl;
    repeat match goal with
           | |- context [?x =? ?y] => destruct (Z.eqb_spec x y)
           end;
    (split; [intros [= <-]; done | intros [Hl Hkc]]);
    destruct l; simpl in *; try done; subst;
    try congruence; exfalso; naive_solver.
Qed.

Lemma hit_distinct keysyms h r l k :
  (forall l1 l2, l1 <> l2 -> is_Some (mask_of l1 h) -> is_Some (mask_of l2 h) ->
     keysyms (keysym_of l1) <> keysyms (keysym_of l2)) ->
  is_Some (mask_of l h) ->
  hit keysyms h r l k <->
  modmap.keycodes r !! Z.to_nat k = Some (keysyms (keysym_of l)).
Proof.
  intros Hd Hl. unfold hit. split.
  - intros (kc & Hkc & Hsel). apply selects_distinct in Hsel as [_ ->]; done.
  - intros Hkc. eexists. split; [exact Hkc|]. by apply selects_distinct.
Qed.

(** X7.  When the keysyms of the locks with a non-null pointer are bound
    to different keycodes, the scan of a table of 8 rows of K keycodes
    leaves behind every non-null pointer [1 << i] for the last cell
    [(i, j)], in row-major order, that holds the keycode of its lock,
    and the value from before the call when no cell holds it. *)
Theorem getlockmask_distinct_keycodes X keysyms m r :
  modmap_reply X = Some r ->
  0 <= modmap.keycodes_per_modifier r ->
  Z.of_nat (length (modmap.keycodes r)) = 8 * modmap.keycodes_per_modifier r ->
  (forall l1 l2, l1 <> l2 ->
     is_Some (mask_of l1 (heap m)) -> is_Some (mask_of l2 (heap m)) ->
     keysyms (keysym_of l1) <> keysyms (keysym_of l2)) ->
  exists w',
    xutil_getlockmask X keysyms m = Ret tt w' /\
    forall l v0, mask_of l (heap m) = Some v0 ->
      (exists i j,
         0 <= i < 8 /\ 0 <= j < modmap.keycodes_per_modifier r /\
         cell_matches keysyms r l i j /\
         (forall i' j',
            0 <= i' < 8 -> 0 <= j' < modmap.keycodes_per_modifier r ->
            i * modmap.keycodes_per_modifier r + j
              < i' * modmap.keycodes_per_modifier r + j' ->
            ~ cell_matches keysyms r l i' j') /\
         mask_of l (heap w') = Some (shl1 i)) \/
      ((forall i j,
          0 <= i < 8 -> 0 <= j < modmap.keycodes_per_modifier r ->
          ~ cell_matches keysyms r l i j) /\
       mask_of l (heap w') = Some v0).
Proof.
  intros Hr HK Hlen Hd.
  destruct (getlockmask_scan X keysyms m r Hr HK Hlen) as (w' & Hrun & Hs & _).
  exists w'. split; [exact Hrun|].
  intros l v0 Hl. specialize (Hs l). rewrite Hl in Hs.
  assert (forall k, hit keysyms (heap m) r l k <->
            modmap.keycodes r !! Z.to_nat k
            = Some (xcb_key_symbols_get_keycode keysyms (keysym_of l))) as Hhit.
  { intros k. apply hit_distinct; [done|]. rewrite Hl. eauto. }
  unfold cell_matches. set (K := modmap.keycodes_per_modifier r) in *.
  destruct Hs as [(k & Hk & Hh & Hlast & Hm)|(Hnone & Hm)].
  - left. assert (0 < K) as HK0 by lia.
    exists (k / K), (k mod K).
    pose proof (Z.mod_pos_bound k K HK0) as Hmod.
    pose proof (Z.div_mod k K ltac:(lia)) as Hdm.
    assert (0 <= k / K < 8) as Hdiv.
    { split; [apply Z.div_pos; lia | apply Z.div_lt_upper_bound; lia]. }
    split_and!; try lia.
    + apply Hhit. by replace (k / K * K + k mod K) with k by lia.
    + intros i' j' Hi' Hj' Hlt Hc. apply Hhit in Hc. revert Hc.
      apply Hlast. nia.
    + exact Hm.
  - right. split; [|exact Hm]. intros i j Hi Hj Hc. apply Hhit in Hc.
    revert Hc. apply Hnone. nia.
Qed.

(** Caps Lock on keycode 66, found in rows 1 and 7; Num Lock on keycode
    9, which the table does not hold: the caps mask is [1 << 7] and the
    num mask keeps its 5. *)
Lemma getlockmask_distinct_keycodes_witness :
  exists w',
    xutil_getlockmask (server_modmap modmap_two) (keysyms_of 9 0 66)
      (World (LockMasks (Some 5) None (Some 0)) []) = Ret tt w' /\
    capslockmask (heap w') = Some 128 /\
    numlockmask (heap w') = Some 5.
Proof.
  destruct (getlockmask_distinct_keycodes (server_modmap modmap_two)
              (keysyms_of 9 0 66) (World (LockMasks (Some 5) None (Some 0)) [])
              modmap_two eq_refl ltac:(simpl; lia) eq_refl)
    as (w' & Hrun & Hmasks).
  { intros [] [] Hne [? H1] [? H2]; simpl in *; done. }
  exists w'. split; [exact Hrun|].
  assert (forall i j, 0 <= i < 8 -> 0 <= j < 2 ->
            exists n, (n < 16)%nat /\ Z.to_nat (i * 2 + j) = n) as Hidx.
  { intros i j Hi Hj. exists (Z.to_nat (i * 2 + j)). split; [lia|done]. }
  split.
  - destruct (Hmasks CapsLock 0 eq_refl)
      as [(i & j & Hi & Hj & _ & Hlast & Hm)|[Hnone _]].
    + simpl in Hm. rewrite Hm. f_equal.
      destruct (decide (i = 7)) as [->|Hne]; [reflexivity|].
      exfalso. apply (Hlast 7 1 ltac:(lia) ltac:(simpl; lia)); [simpl in *; lia|].
      reflexivity.
    + exfalso. apply (Hnone 7 1 ltac:(lia) ltac:(simpl; lia)). reflexivity.
  - destruct (Hmasks NumLock 5 eq_refl)
      as [(i & j & Hi & Hj & Hc & _)|[_ Hm]]; [|exact Hm].
    exfalso. unfold cell_matches in Hc. simpl in Hj, Hc.
    destruct (Hidx i j Hi Hj) as (n & Hn & Hin). rewrite Hin in Hc.
    do 16 (destruct n as [|n]; [discriminate Hc|]). lia.
Defined.

(** ** xutil_get_class_hint *)






(** X9.  The call returns no hint exactly when the reply is absent, or
    its type is not [STRING], or its format is not 8, whatever the
    payload holds; it has then sent its one request and waited for the
    reply, and a reply that is present has been released. *)
Theorem get_class_hint_none_iff X win m :
  ((exists w', xutil_get_class_hint X win m = Ret None w') <->
   (property_reply X win WM_CLASS = None \/
    exists r, property_reply X win WM_CLASS = Some r /\
              (prop.type r <> STRING \/ prop.format r <> 8))) /\
  (forall w', xutil_get_class_hint X win m = Ret None w' ->
     w' = World (heap m)
            (trace m ++ class_request win ::
               match property_reply X win WM_CLASS with
               | Some _ => [Reply true; Release]
               | None => [Reply false]
               end)).
Proof.
  assert (forall (r : prop.reply) (w0 w' : world unit),
            ~ (len_name ← a_strlen (prop.value r) 0 ;
               len_class ← a_strlen (prop.value r) (len_name + 1) ;
               name ← strndup (prop.value r) 0 len_name ;
               class ← strndup (prop.value r) (len_name + 1) len_class ;
               p_delete ;; mret (Some (ClassHint name class))) w0
              = Ret None w') as Hsome.
  { intros r w0 w' Hrun.
    apply bind_ret_inv in Hrun as (n1 & w1 & _ & Hrun).
    apply bind_ret_inv in Hrun as (n2 & w2 & _ & Hrun).
    apply bind_ret_inv in Hrun as (s1 & w3 & _ & Hrun).
    apply bind_ret_inv in Hrun as (s2 & w4 & _ & Hrun).
    revert Hrun. xrun. discriminate. }
  unfold xutil_get_class_hint.
  rewrite bind_run, emit_run. unfold wait_reply. rewrite !bind_run, emit_run.
  simpl. destruct (property_reply X win WM_CLASS) as [r|]; simpl.
  - destruct (Z.eqb_spec (prop.type r) STRING) as [Ht|Ht],
      (Z.eqb_spec (prop.format r) 8) as [Hf|Hf]; simpl.
    + split; [split|].
      * intros (w' & Hrun). exfalso. by eapply Hsome.
      * intros [?|(r' & [= <-] & [?|?])]; done.
      * intros w' Hrun. exfalso. by eapply Hsome.
    + split; [split; [eauto 10 | intros _; xrun; eauto]|].
      xrun. intros w' [= <-]. by rewrite <- !app_assoc.
    + split; [split; [eauto 10 | intros _; xrun; eauto]|].
      xrun. intros w' [= <-]. by rewrite <- !app_assoc.
    + split; [split; [eauto 10 | intros _; xrun; eauto]|].
      xrun. intros w' [= <-]. by rewrite <- !app_assoc.
  - split; [split; [auto | intros _; xrun; eauto]|].
    xrun. intros w' [= <-]. by rewrite <- !app_assoc.
Qed.

(** A reply of another type, with a payload that holds no null byte. *)
Lemma get_class_hint_none_iff_witness :
  xutil_get_class_hint (server_with (Some reply_compound)) 9 (World tt [])
  = Ret None (World tt [class_request 9; Reply true; Release]).
Proof.
  destruct (get_class_hint_none_iff (server_with (Some reply_compound)) 9
              (World tt [])) as [[_ Hnone] Htrace].
  destruct Hnone as (w' & Hrun).
  { right. exists reply_compound. split; [reflexivity|]. left. discriminate. }
  rewrite Hrun. f_equal. apply (Htrace w' Hrun).
Defined.

(** ** xutil_get_error *)

(** The record built from a raw error, as a function of its bytes at
    offsets 1 and 10. *)
Lemma get_error_record (e : list byte) (c o : byte) (w : world unit) :
  e !! 0%nat = Some x00 -> e !! 1%nat = Some c -> e !! 10%nat = Some o ->
  xutil_get_error e w
  = Ret (Some (XutilError (byte_val o) (label_of xutil_request_label o)
                 (label_of xutil_error_label c))) w.
Proof.
  intros H0 H1 H10.
  assert (forall (table : list string) (b : byte) s,
            (byte_val b < Z.of_nat (length table) ->
               table !! Z.to_nat (byte_val b) = Some s) ->
            (Z.of_nat (length table) <= byte_val b -> s = decimal b) ->
            s = label_of table b) as Hlabel.
  { intros table b s Hin Hout. unfold label_of.
    pose proof (byte_val_range b) as Hb.
    destruct (Z.lt_ge_cases (byte_val b) (Z.of_nat (length table))) as [Hlt|Hge].
    - by rewrite (Hin Hlt).
    - rewrite (lookup_ge_None_2 table) by lia. by apply Hout. }
  unfold xutil_get_error, byte_at.
  remember xutil_request_label as rt eqn:Hrt.
  remember xutil_error_label as et eqn:Het.
  rewrite bind_run, H0. simpl.
  rewrite bind_run, H10. simpl.
  destruct (label_run rt o w) as (rl & Hrl & Hrin & Hrout).
  rewrite bind_run, Hrl.
  rewrite bind_run, H1. simpl.
  destruct (label_run et c w) as (el & Hel & Hein & Heout).
  rewrite bind_run, Hel.
  rewrite (Hlabel rt o rl), (Hlabel et c el) by done. reflexivity.
Qed.

Lemma all_bytes_lookup (b : byte) : all_bytes !! Z.to_nat (byte_val b) = Some b.
Proof. destruct b; reflexivity. Qed.

Lemma error_labels_nodup : NoDup (label_of xutil_error_label <$> all_bytes).
Proof.
  apply (bool_decide_unpack (NoDup (label_of xutil_error_label <$> all_bytes))).
  vm_compute. exact I.
Qed.

Lemma request_labels_nodup :
  NoDup (label_of xutil_request_label <$> first_mates).
Proof.
  apply (bool_decide_unpack (NoDup (label_of xutil_request_label <$> first_mates))).
  vm_compute. exact I.
Qed.

Lemma nodup_fmap_inj {A B} (f : A -> B) (l : list A) (x y : A) :
  NoDup (f <$> l) -> x ∈ l -> y ∈ l -> f x = f y -> x = y.
Proof.
  intros Hnd Hx Hy Hf.
  apply list_elem_of_lookup in Hx as [i Hi], Hy as [j Hj].
  assert (i = j) as ->.
  { apply (NoDup_lookup _ i j (f x) Hnd); rewrite list_lookup_fmap.
    - by rewrite Hi.
    - by rewrite Hj, Hf. }
  congruence.
Qed.

Lemma byte_val_inj (a b : byte) : byte_val a = byte_val b -> a = b.
Proof.
  unfold byte_val. intros Hab. apply N2Z.inj in Hab.
  pose proof (Byte.of_to_N a) as Ha. rewrite Hab, Byte.of_to_N in Ha.
  congruence.
Qed.

Lemma all_bytes_elem (b : byte) : b ∈ all_bytes.
Proof. apply list_elem_of_lookup. eexists. apply all_bytes_lookup. Qed.

Lemma first_mate_cases (o : byte) :
  first_mate o = o \/ (o = x4b /\ first_mate o = x4a)
  \/ (o = x4d /\ first_mate o = x4c).
Proof. destruct o; auto. Qed.

Lemma first_mate_elem (o : byte) : first_mate o ∈ first_mates.
Proof.
  apply list_elem_of_In, filter_In. split.
  - apply list_elem_of_In, all_bytes_elem.
  - destruct o; reflexivity.
Qed.

Lemma label_of_first_mate (o : byte) :
  label_of xutil_request_label (first_mate o) = label_of xutil_request_label o.
Proof.
  destruct (first_mate_cases o) as [->|[[-> ->]|[-> ->]]]; reflexivity.
Qed.

(** X10.  The error label of a record tells the error code: two raw
    errors get the same error label exactly when their error codes are
    equal, over all 256 codes.  The request label does not tell the
    opcode: opcodes 74 and 75 are both labelled ["PolyText"], 76 and 77
    both ["ImageText"]; any other two different opcodes get different
    request labels. *)
Theorem get_error_labels_identify (e1 e2 : list byte) (c1 c2 o1 o2 : byte)
    (w : world unit) :
  e1 !! 0%nat = Some x00 -> e1 !! 1%nat = Some c1 -> e1 !! 10%nat = Some o1 ->
  e2 !! 0%nat = Some x00 -> e2 !! 1%nat = Some c2 -> e2 !! 10%nat = Some o2 ->
  exists err1 err2,
    xutil_get_error e1 w = Ret (Some err1) w /\
    xutil_get_error e2 w = Ret (Some err2) w /\
    (error_label err1 = error_label err2 <-> c1 = c2) /\
    (request_label err1 = request_label err2 <-> o1 = o2 \/ label_mates o1 o2).
Proof.
  intros H0 H1 H10 H0' H1' H10'.
  eexists _, _.
  split; [by apply (get_error_record e1 c1 o1)|].
  split; [by apply (get_error_record e2 c2 o2)|]. simpl.
  split; split.
  - apply (nodup_fmap_inj _ all_bytes); auto using error_labels_nodup, all_bytes_elem.
  - by intros ->.
  - intros Hl. rewrite <- (label_of_first_mate o1), <- (label_of_first_mate o2) in Hl.
    apply (nodup_fmap_inj _ first_mates) in Hl;
      auto using request_labels_nodup, first_mate_elem.
    unfold label_mates.
    destruct (first_mate_cases o1) as [E1|[[Ho1 E1]|[Ho1 E1]]],
      (first_mate_cases o2) as [E2|[[Ho2 E2]|[Ho2 E2]]];
      rewrite E1, E2 in Hl; subst; try discriminate;
      (by left) || (right; vm_compute; auto 10).
  - intros [->|Hm]; [done|]. unfold label_mates in Hm.
    assert (forall o v b, byte_val o = v -> byte_val b = v -> o = b) as Hinj.
    { intros o v b Ho Hb. apply byte_val_inj. congruence. }
    assert (o1 = x4a \/ o1 = x4b \/ o1 = x4c \/ o1 = x4d) as Ho1.
    { destruct Hm as [[[?|?] _]|[[?|?] _]];
        [left|right; left|right; right; left|right; right; right];
        eapply Hinj; eauto. }
    assert (o2 = x4a \/ o2 = x4b \/ o2 = x4c \/ o2 = x4d) as Ho2.
    { destruct Hm as [[_ [?|?]]|[_ [?|?]]];
        [left|right; left|right; right; left|right; right; right];
        eapply Hinj; eauto. }
    destruct Ho1 as [->|[->|[->| ->]]], Ho2 as [->|[->|[->| ->]]];
      try reflexivity;
      exfalso; vm_compute in Hm; destruct Hm as [[[?|?] [?|?]]|[[?|?] [?|?]]];
      discriminate.
Qed.

(** Opcodes 74 and 75 on the same error code. *)
Lemma get_error_labels_identify_witness :
  exists err1 err2,
    xutil_get_error (raw_error x00 x03 x4a) (World tt []) = Ret (Some err1) (World tt []) /\
    xutil_get_error (raw_error x00 x03 x4b) (World tt []) = Ret (Some err2) (World tt []) /\
    error_label err1 = error_label err2 /\
    request_label err1 = request_label err2.
Proof.
  destruct (get_error_labels_identify (raw_error x00 x03 x4a)
              (raw_error x00 x03 x4b) x03 x03 x4a x4b (World tt [])
              eq_refl eq_refl eq_refl eq_refl eq_refl eq_refl)
    as (err1 & err2 & Hrun1 & Hrun2 & Herr & Hreq).
  exists err1, err2. split; [exact Hrun1|]. split; [exact Hrun2|]. split.
  - apply Herr. reflexivity.
  - apply Hreq. right. left. split; [left|right]; reflexivity.
Defined.

(** X11.  On a raw error of at least 11 bytes the call returns, with
    the lookups in both label tables inside the tables for every code:
    it gives no record exactly when the [response_type] byte is not
    zero, and what it gives depends on the bytes at offsets 0, 1 and 10
    only. *)
Theorem get_error_total (e : list byte) (w : world unit) :
  (11 <= length e)%nat ->
  exists res,
    xutil_get_error e w = Ret res w /\
    (res = None <-> e !! 0%nat <> Some x00) /\
    forall e', e' !! 0%nat = e !! 0%nat -> e' !! 1%nat = e !! 1%nat ->
               e' !! 10%nat = e !! 10%nat ->
               xutil_get_error e' w = Ret res w.
Proof.
  intros Hlen.
  destruct (lookup_lt_is_Some_2 e 0) as [t H0]; [lia|].
  destruct (lookup_lt_is_Some_2 e 1) as [c H1]; [lia|].
  destruct (lookup_lt_is_Some_2 e 10) as [o H10]; [lia|].
  destruct (Byte.byte_eq_dec t x00) as [->|Ht].
  - eexists. split; [by apply (get_error_record e c o)|].
    split; [split; [discriminate | rewrite H0; done]|].
    intros e' E0 E1 E10. apply (get_error_record e' c o); congruence.
  - exists None. split; [by apply (get_error_not_an_error e t)|].
    split; [split; [intros _; rewrite H0; congruence | done]|].
    intros e' E0 E1 E10. apply (get_error_not_an_error e' t); congruence.
Qed.

(** A reply routed to the error handler by mistake. *)
Lemma get_error_total_witness :
  xutil_get_error (raw_error x01 x03 x10) (World tt []) = Ret None (World tt []).
Proof.
  destruct (get_error_total (raw_error x01 x03 x10) (World tt [])
              ltac:(simpl; lia)) as (res & Hrun & Hnone & _).
  rewrite Hrun. f_equal. apply Hnone. discriminate.
Defined.

(** ** Allocations: xutil_get_error and xutil_delete_error *)

Lemma malloc_run (b : block) (w : world allocs) :
  malloc b w
  = Ret (stdpp.base.fresh (dom (heap w)))
      (World (<[stdpp.base.fresh (dom (heap w)) := b]> (heap w)) (trace w)).
Proof. reflexivity. Qed.

Lemma fresh_not_live (h : allocs) : h !! stdpp.base.fresh (dom h) = None.
Proof. apply not_elem_of_dom, is_fresh. Qed.

Lemma free_run (a : Z) (b : block) (w : world allocs) :
  heap w !! a = Some b ->
  free (Some a) w = Ret tt (World (delete a (heap w)) (trace w)).
Proof. intros Ha. unfold free. by rewrite Ha. Qed.

Lemma store_block_run (a : Z) (b b0 : block) (w : world allocs) :
  heap w !! a = Some b0 ->
  store_block a b w = Ret tt (World (<[a := b]> (heap w)) (trace w)).
Proof. intros Ha. unfold store_block. by rewrite Ha. Qed.

Lemma error_rec_run (a : Z) rc rl el (w : world allocs) :
  heap w !! a = Some (ErrorRec rc rl el) ->
  error_rec (Some a) w = Ret (rc, rl, el) w.
Proof. intros Ha. unfold error_rec, load_block. rewrite bind_run. by rewrite Ha. Qed.

Lemma new_label_run (table : list string) (b : byte) (w : world allocs) :
  new_label table (byte_val b) w = malloc (Chars (label_of table b)) w.
Proof.
  unfold new_label, label_of, a_strdup_at.
  pose proof (byte_val_range b) as Hb.
  destruct (Z.leb_spec (Z.of_nat (length table)) (byte_val b)) as [Hle|Hlt].
  - rewrite (lookup_ge_None_2 table) by lia. by rewrite asprintf_d_byte.
  - destruct (lookup_lt_is_Some_2 table (Z.to_nat (byte_val b))) as [s Hs]; [lia|].
    rewrite Hs. reflexivity.
Qed.

(** X12.  A raw error with a zero [response_type] gets a record and two
    labels in three new blocks, at addresses that were not live and
    differ from each other; the record holds the byte at offset 10 as
    request code and points to the two labels, which are those of
    [xutil_get_error].  [xutil_delete_error] on that record frees these
    three blocks and nothing else: the live blocks are again those from
    before the record was made. *)
Theorem get_error_delete_error_round_trip (e : list byte) (c o : byte)
    (h : allocs) (tr : list xevent) :
  e !! 0%nat = Some x00 -> e !! 1%nat = Some c -> e !! 10%nat = Some o ->
  exists err a_req a_err h1,
    h !! err = None /\ h !! a_req = None /\ h !! a_err = None /\
    err <> a_req /\ err <> a_err /\ a_req <> a_err /\
    h1 = <[err := ErrorRec (byte_val o) (Some a_req) (Some a_err)]>
           (<[a_err := Chars (label_of xutil_error_label c)]>
              (<[a_req := Chars (label_of xutil_request_label o)]> h)) /\
    xutil_get_error e (World tt tr)
      = Ret (Some (XutilError (byte_val o) (label_of xutil_request_label o)
                     (label_of xutil_error_label c))) (World tt tr) /\
    xutil_get_error_heap e (World h tr) = Ret (Some err) (World h1 tr) /\
    xutil_delete_error (Some err) (World h1 tr) = Ret tt (World h tr).
Proof.
  intros H0 H1 H10.
  set (lr := label_of xutil_request_label o).
  set (le := label_of xutil_error_label c).
  set (a1 := stdpp.base.fresh (dom h)).
  set (h2 := <[a1 := ErrorRec (byte_val o) None None]>
               (<[a1 := ErrorRec 0 None None]> h)).
  set (a2 := stdpp.base.fresh (dom h2)).
  set (h4 := <[a1 := ErrorRec (byte_val o) (Some a2) None]>
               (<[a2 := Chars lr]> h2)).
  set (a3 := stdpp.base.fresh (dom h4)).
  assert (h !! a1 = None) as Ha1 by apply fresh_not_live.
  assert (h2 !! a2 = None) as Ha2 by apply fresh_not_live.
  assert (h4 !! a3 = None) as Ha3 by apply fresh_not_live.
  assert (a1 <> a2) as H12.
  { intros E. rewrite <- E in Ha2. unfold h2 in Ha2.
    by rewrite lookup_insert_eq in Ha2. }
  assert (a1 <> a3) as H13.
  { intros E. rewrite <- E in Ha3. unfold h4 in Ha3.
    by rewrite lookup_insert_eq in Ha3. }
  assert (a2 <> a3) as H23.
  { intros E. rewrite <- E in Ha3. unfold h4 in Ha3.
    by rewrite lookup_insert_ne, lookup_insert_eq in Ha3. }
  assert (h !! a2 = None) as Ha2'.
  { unfold h2 in Ha2. by rewrite !lookup_insert_ne in Ha2. }
  assert (h !! a3 = None) as Ha3'.
  { unfold h4, h2 in Ha3. by rewrite !lookup_insert_ne in Ha3. }
  exists a1, a2, a3. eexists.
  split_and!; try done.
  - by apply get_error_record.
  - unfold xutil_get_error_heap, byte_at, p_new_error.
    rewrite bind_run, H0. simpl.
    rewrite bind_run, malloc_run. simpl. fold a1.
    rewrite bind_run, H10. simpl.
    rewrite bind_run, (error_rec_run a1 0 None None)
      by (simpl; apply lookup_insert_eq).
    rewrite bind_run, (store_block_run a1 _ (ErrorRec 0 None None))
      by (simpl; apply lookup_insert_eq).
    simpl. fold h2.
    rewrite bind_run, (error_rec_run a1 (byte_val o) None None)
      by (simpl; apply lookup_insert_eq).
    rewrite bind_run, new_label_run, malloc_run. simpl. fold a2 lr.
    rewrite bind_run, (store_block_run a1 _ (ErrorRec (byte_val o) None None))
      by (simpl; rewrite lookup_insert_ne by done; apply lookup_insert_eq).
    simpl. fold h4.
    rewrite bind_run, H1. simpl.
    rewrite bind_run, new_label_run, malloc_run. simpl. fold a3 le.
    rewrite bind_run, (error_rec_run a1 (byte_val o) (Some a2) None)
      by (simpl; rewrite lookup_insert_ne by done; apply lookup_insert_eq).
    rewrite bind_run, (store_block_run a1 _ (ErrorRec (byte_val o) (Some a2) None))
      by (simpl; rewrite lookup_insert_ne by done; apply lookup_insert_eq).
    simpl. do 2 f_equal.
    apply map_eq. intros k. unfold h4, h2.
    repeat (rewrite lookup_insert; case_decide; subst; try done).
  - unfold xutil_delete_error.
    rewrite bind_run, (error_rec_run a1 (byte_val o) (Some a2) (Some a3))
      by (simpl; apply lookup_insert_eq).
    rewrite bind_run, (free_run a3 (Chars le))
      by (simpl; rewrite lookup_insert_ne by done; apply lookup_insert_eq).
    simpl.
    rewrite bind_run,
      (store_block_run a1 _ (ErrorRec (byte_val o) (Some a2) (Some a3)))
      by (simpl; rewrite lookup_delete_ne by done; apply lookup_insert_eq).
    simpl.
    rewrite bind_run, (error_rec_run a1 (byte_val o) (Some a2) None)
      by (simpl; apply lookup_insert_eq).
    rewrite bind_run, (free_run a2 (Chars lr))
      by (simpl; rewrite lookup_insert_ne, lookup_delete_ne, !lookup_insert_ne by done;
          apply lookup_insert_eq).
    simpl.
    rewrite bind_run,
      (store_block_run a1 _ (ErrorRec (byte_val o) (Some a2) None))
      by (simpl; rewrite lookup_delete_ne by done; apply lookup_insert_eq).
    simpl.
    rewrite lookup_insert_eq. do 2 f_equal.
    apply map_eq. intros k.
    repeat first [rewrite lookup_delete | rewrite lookup_insert];
      repeat (case_decide; subst; try done).
Qed.

(** Error code 3 raised by opcode 16, with no block live before. *)
Lemma get_error_delete_error_round_trip_witness :
  exists err h1,
    xutil_get_error_heap (raw_error x00 x03 x10) (World ∅ []) = Ret (Some err) (World h1 []) /\
    xutil_delete_error (Some err) (World h1 []) = Ret tt (World ∅ []).
Proof.
  destruct (get_error_delete_error_round_trip (raw_error x00 x03 x10) x03 x10
              ∅ [] eq_refl eq_refl eq_refl)
    as (err & a_req & a_err & h1 & _ & _ & _ & _ & _ & _ & _ & _ & Hget & Hdel).
  exists err, h1. split; [exact Hget | exact Hdel].
Defined.

(** ** Allocations: xutil_get_class_hint *)

Lemma class_hint_rec_run (a : Z) rn rc (w : world allocs) :
  heap w !! a = Some (ClassHintRec rn rc) ->
  class_hint_rec (Some a) w = Ret (rn, rc) w.
Proof.
  intros Ha. unfold class_hint_rec, load_block. rewrite bind_run. by rewrite Ha.
Qed.

Lemma strndup_heap_run (data : list byte) (off n : Z) (s : list byte)
    (w : world allocs) :
  0 <= off -> 0 <= n ->
  strndup_bytes (drop (Z.to_nat off) data) (Z.to_nat n) = Some s ->
  strndup_heap data off n w = malloc (Bytes s) w.
Proof.
  intros Hoff Hn Hs. unfold strndup_heap.
  by rewrite bind_run, (strndup_run _ _ _ s).
Qed.

(** X13.  On a reply of type [STRING] and format 8 whose payload holds
    an instance name, a null byte, a class name and a null byte, the
    hint returned is a new block that points to two more new blocks, one
    with the bytes of the instance name and one with those of the class
    name: three addresses that were not live and differ from each other,
    so that the caller owns both strings apart from the reply, which is
    released.  The names are those [xutil_get_class_hint] gives. *)
Theorem get_class_hint_owned X win (h : allocs) tr r
    (name class rest : list byte) :
  property_reply X win WM_CLASS = Some r ->
  prop.type r = STRING -> prop.format r = 8 ->
  prop.value r = name ++ NUL :: class ++ NUL :: rest ->
  nul_free name -> nul_free class ->
  exists ch a_name a_class,
    h !! ch = None /\ h !! a_name = None /\ h !! a_class = None /\
    ch <> a_name /\ ch <> a_class /\ a_name <> a_class /\
    xutil_get_class_hint_heap X win (World h tr)
    = Ret (Some ch)
        (World (<[ch := ClassHintRec (Some a_name) (Some a_class)]>
                  (<[a_class := Bytes class]> (<[a_name := Bytes name]> h)))
           (tr ++ [class_request win; Reply true; Release])) /\
    xutil_get_class_hint X win (World tt tr)
    = Ret (Some (ClassHint name class))
        (World tt (tr ++ [class_request win; Reply true; Release])).
Proof.
  intros Hr Ht Hf Hv Hname Hclass.
  set (a1 := stdpp.base.fresh (dom h)).
  set (h1 := <[a1 := ClassHintRec None None]> h).
  set (a2 := stdpp.base.fresh (dom h1)).
  set (h2 := <[a1 := ClassHintRec (Some a2) None]> (<[a2 := Bytes name]> h1)).
  set (a3 := stdpp.base.fresh (dom h2)).
  assert (h !! a1 = None) as Ha1 by apply fresh_not_live.
  assert (h1 !! a2 = None) as Ha2 by apply fresh_not_live.
  assert (h2 !! a3 = None) as Ha3 by apply fresh_not_live.
  assert (a1 <> a2) as H12.
  { intros E. rewrite <- E in Ha2. unfold h1 in Ha2.
    by rewrite lookup_insert_eq in Ha2. }
  assert (a1 <> a3) as H13.
  { intros E. rewrite <- E in Ha3. unfold h2 in Ha3.
    by rewrite lookup_insert_eq in Ha3. }
  assert (a2 <> a3) as H23.
  { intros E. rewrite <- E in Ha3. unfold h2 in Ha3.
    by rewrite lookup_insert_ne, lookup_insert_eq in Ha3. }
  assert (h !! a2 = None) as Ha2'.
  { unfold h1 in Ha2. by rewrite lookup_insert_ne in Ha2. }
  assert (h !! a3 = None) as Ha3'.
  { unfold h2, h1 in Ha3. by rewrite !lookup_insert_ne in Ha3. }
  exists a1, a2, a3. split_and!; try done.
  2:{ by apply (get_class_hint_split X win (World tt tr) r name class rest). }
  assert (drop (Z.to_nat (Z.of_nat (length name) + 1)) (prop.value r)
          = class ++ NUL :: rest) as Hdrop.
  { rewrite Hv.
    replace (Z.to_nat (Z.of_nat (length name) + 1))
      with (length name + 1)%nat by lia.
    rewrite <- drop_drop, drop_app_length. reflexivity. }
  unfold xutil_get_class_hint_heap, p_new_class_hint.
  rewrite bind_run, emit_run. simpl.
  rewrite bind_run, malloc_run. simpl. fold a1 h1.
  unfold wait_reply. rewrite !bind_run, emit_run, Hr. simpl.
  apply Z.eqb_eq in Ht, Hf. rewrite Ht, Hf. simpl.
  rewrite bind_run, (a_strlen_run _ _ (Z.of_nat (length name)))
    by (lia || by rewrite Hv; apply strlen_app).
  rewrite bind_run, (a_strlen_run _ _ (Z.of_nat (length class)))
    by (lia || by rewrite Hdrop; apply strlen_app).
  rewrite bind_run, (strndup_heap_run _ _ _ name)
    by (lia || by rewrite Hv, Nat2Z.id; apply strndup_bytes_app).
  rewrite malloc_run. simpl. fold a2.
  rewrite bind_run, (class_hint_rec_run a1 None None)
    by (simpl; rewrite lookup_insert_ne by done; apply lookup_insert_eq).
  rewrite bind_run, (store_block_run a1 _ (ClassHintRec None None))
    by (simpl; rewrite lookup_insert_ne by done; apply lookup_insert_eq).
  simpl. fold h2.
  rewrite bind_run, (strndup_heap_run _ _ _ class)
    by (lia || by rewrite Hdrop, Nat2Z.id; apply strndup_bytes_app).
  rewrite malloc_run. simpl. fold a3.
  rewrite bind_run, (class_hint_rec_run a1 (Some a2) None)
    by (simpl; rewrite lookup_insert_ne by done; apply lookup_insert_eq).
  rewrite bind_run, (store_block_run a1 _ (ClassHintRec (Some a2) None))
    by (simpl; rewrite lookup_insert_ne by done; apply lookup_insert_eq).
  xrun. f_equal. f_equal.
  - apply map_eq. intros k. unfold h2, h1.
    repeat (rewrite lookup_insert; case_decide; subst; try done).
  - by rewrite <- !app_assoc.
Qed.

(** The names of a terminal, with no block live before. *)
Lemma get_class_hint_owned_witness :
  exists ch a_name a_class,
    xutil_get_class_hint_heap (server_with (Some reply_urxvt)) 9 (World ∅ [])
    = Ret (Some ch)
        (World (<[ch := ClassHintRec (Some a_name) (Some a_class)]>
                  (<[a_class := Bytes (bytes_of "URxvt")]>
                     (<[a_name := Bytes (bytes_of "urxvt")]> ∅)))
           [class_request 9; Reply true; Release]).
Proof.
  destruct (get_class_hint_owned (server_with (Some reply_urxvt)) 9 ∅ []
              reply_urxvt (bytes_of "urxvt") (bytes_of "URxvt") []
              eq_refl eq_refl eq_refl eq_refl
              ltac:(repeat constructor) ltac:(repeat constructor))
    as (ch & a_name & a_class & _ & _ & _ & _ & _ & _ & Hrun & _).
  exists ch, a_name, a_class. exact Hrun.
Defined.

(** X14.  The structure for the hint is allocated before the reply is
    looked at, and the paths that return no hint do not free it: when
    the reply is absent, or its type is not [STRING], or its format is
    not 8, the call returns null and leaves one new block live, the
    structure with both fields null, to which it hands out no pointer. *)
Theorem get_class_hint_rejected_block X win (h : allocs) tr :
  (property_reply X win WM_CLASS = None \/
   exists r, property_reply X win WM_CLASS = Some r /\
             (prop.type r <> STRING \/ prop.format r <> 8)) ->
  exists ch tr',
    h !! ch = None /\
    xutil_get_class_hint_heap X win (World h tr)
    = Ret None (World (<[ch := ClassHintRec None None]> h) tr').
Proof.
  intros Hrej. exists (stdpp.base.fresh (dom h)).
  unfold xutil_get_class_hint_heap, p_new_class_hint.
  rewrite bind_run, emit_run. simpl.
  rewrite bind_run, malloc_run. simpl.
  unfold wait_reply. rewrite !bind_run, emit_run. simpl.
  destruct Hrej as [->|(r & -> & Hbad)]; simpl.
  - eexists. split; [apply fresh_not_live | reflexivity].
  - assert (negb (prop.type r =? STRING) || negb (prop.format r =? 8) = true)
      as ->.
    { rewrite orb_true_iff, !negb_true_iff, !Z.eqb_neq. tauto. }
    xrun. eexists. split; [apply fresh_not_live | reflexivity].
Qed.

(** A window without the property: no reply, one block left. *)
Lemma get_class_hint_rejected_block_witness :
  exists ch tr',
    xutil_get_class_hint_heap (server_with None) 9 (World ∅ [])
    = Ret None (World (<[ch := ClassHintRec None None]> ∅) tr').
Proof.
  destruct (get_class_hint_rejected_block (server_with None) 9 ∅ [])
    as (ch & tr' & _ & Hrun).
  { left. reflexivity. }
  exists ch, tr'. exact Hrun.
Defined.
